(** * skill_synth: a shallow embedding of the synthesis pipeline

    The Python sources under [src/skill_synth] are embedded as Rocq
    functions.  Python values keep their shape: a [str] is a list of Unicode
    code points, a decoded JSON document is the inductive [json], an [int] is
    a [Z], a finite [float] is the rational [Q] it denotes, and a call that
    may raise returns a [result].  The float arithmetic of the judge (the
    product that sizes the draw, the mean and the rounding of a verdict's
    overall score) is the binary64 one: the exact result rounded to the
    nearest representable number, ties to even ([Binary64]); the mean and
    the rate of the statistics bag and the ASCII ratio of the skill filter
    are computed exactly.  Network answers, the random generator and the
    completion order of coroutines are inputs of the functions that consume
    them; a coroutine that waits for ever is an outcome of its own
    ([awaited]).  Console output is not modelled. *)

From Stdlib Require Import ZArith QArith Qround Qpower Qabs Lqa Lia String Ascii DecimalString.
From stdpp Require Import base option list gmap sets.

Set Warnings "-register-all".
Local Open Scope Z_scope.

(* ===================================================================== *)
(** * Python values *)
(* ===================================================================== *)

Module Py.

(** A [str] is a sequence of code points. *)
Abbreviation str := (list N).

(** An ASCII literal as a [str]. *)
Definition lit (s : string) : str := N_of_ascii <$> list_ascii_of_string s.

(** [str.isspace] on one code point (CPython's [_PyUnicode_IsWhitespace]). *)
Definition isspace (c : N) : bool :=
  ((9 <=? c) && (c <=? 13) || (28 <=? c) && (c <=? 32)
   || (c =? 133) || (c =? 160) || (c =? 5760)
   || (8192 <=? c) && (c <=? 8202)
   || (c =? 8232) || (c =? 8233) || (c =? 8239) || (c =? 8287)
   || (c =? 12288))%N.

Fixpoint lstrip (s : str) : str :=
  match s with
  | c :: s' => if isspace c then lstrip s' else s
  | [] => []
  end.

Definition rstrip (s : str) : str := reverse (lstrip (reverse s)).

(** [s.strip()] *)
Definition strip (s : str) : str := rstrip (lstrip s).

(** [s.split(sep)] for a one-character separator. *)
Fixpoint split_on (sep : N) (s : str) : list str :=
  match s with
  | [] => [[]]
  | c :: s' =>
      if (c =? sep)%N then [] :: split_on sep s'
      else match split_on sep s' with
           | l :: ls => (c :: l) :: ls
           | [] => [[c]]
           end
  end.

(** [sep.join(parts)] *)
Fixpoint join (sep : str) (parts : list str) : str :=
  match parts with
  | [] => []
  | [p] => p
  | p :: ps => p ++ sep ++ join sep ps
  end.

(** [s.split()]: the maximal runs of non-whitespace; [cur] is the run being
    read, most recent character first. *)
Fixpoint split_ws_from (cur : str) (s : str) : list str :=
  match s with
  | [] => match cur with [] => [] | _ => [reverse cur] end
  | c :: s' =>
      if isspace c
      then match cur with
           | [] => split_ws_from [] s'
           | _ => reverse cur :: split_ws_from [] s'
           end
      else split_ws_from (c :: cur) s'
  end.

Definition split_ws (s : str) : list str := split_ws_from [] s.

(** [s.startswith(p)] *)
Fixpoint startswith (p s : str) : bool :=
  match p, s with
  | [], _ => true
  | a :: p', b :: s' => (a =? b)%N && startswith p' s'
  | _ :: _, [] => false
  end.

(** [len(x)] as a Python int. *)
Definition len {A} (l : list A) : Z := Z.of_nat (length l).

(** [str(n)] for an int. *)
Definition str_of_int (n : Z) : str := lit (NilZero.string_of_int (Z.to_int n)).

(** The exceptions the modelled code can meet. *)
Inductive exn : Type :=
| ProviderError        (* raised by a backend: network, auth, rate limit *)
| JSONDecodeError      (* raised by json.loads *)
| TypeError
| AttributeError
| ValueError
| KeyError
| UnicodeEncodeError   (* a lone surrogate met by an encoder *)
| ValidationError.     (* pydantic *)

(** The outcome of a call. *)
Inductive result (A : Type) : Type :=
| Returns (a : A)
| Raises (e : exn).
Arguments Returns {A} a.
Arguments Raises {A} e.

#[global] Instance exn_eq_dec : EqDecision exn.
Proof. solve_decision. Defined.

#[global] Instance result_eq_dec {A} `{EqDecision A} : EqDecision (result A).
Proof. solve_decision. Defined.

Definition bind {A B} (m : result A) (k : A -> result B) : result B :=
  match m with
  | Returns a => k a
  | Raises e => Raises e
  end.

(** [try: body  except Exception: handler] *)
Definition try_except {A} (body : result A) (handler : exn -> result A) : result A :=
  match body with
  | Returns a => Returns a
  | Raises e => handler e
  end.

(** What becomes of a coroutine that is awaited: it finishes, returning or
    raising, or it stays suspended for ever. *)
Inductive awaited (A : Type) : Type :=
| Finished (outcome : result A)
| Suspended.
Arguments Finished {A} outcome.
Arguments Suspended {A}.

(** A surrogate code point; alone in a [str], it has no UTF-8 encoding. *)
Definition is_surrogate (c : N) : bool := ((55296 <=? c) && (c <=? 57343))%N.

(** Whether [s.encode("utf-8")] returns: it raises UnicodeEncodeError on a
    surrogate. *)
Definition encodable (s : str) : bool := forallb (fun c => negb (is_surrogate c)) s.

(** A decoded JSON document (what [json.loads] returns). *)
Inductive json : Type :=
| JNull
| JBool (b : bool)
| JInt (z : Z)
| JFloat (q : Q)
| JStr (s : str)
| JList (items : list json)
| JDict (entries : list (str * json)).

(** [d.get(key)] on the entries of a dict. *)
Fixpoint dict_lookup (key : str) (entries : list (str * json)) : option json :=
  match entries with
  | [] => None
  | (k, v) :: rest => if decide (k = key) then Some v else dict_lookup key rest
  end.

(** [d.get(key, default)] *)
Definition dict_get (entries : list (str * json)) (key : str) (default : json) : json :=
  match dict_lookup key entries with
  | Some v => v
  | None => default
  end.

(** [round(x)] to the nearest integer, ties to even. *)
Definition round_half_even (q : Q) : Z :=
  let f := Qfloor q in
  match Qcompare (q - inject_Z f) (1 # 2) with
  | Lt => f
  | Gt => f + 1
  | Eq => if Z.even f then f else f + 1
  end.

(** [round(x, 2)] *)
Definition round2 (q : Q) : Q := (inject_Z (round_half_even (q * 100)) / 100)%Q.

(** [int(x)] for a float: truncation towards zero. *)
Definition int_of_float (q : Q) : Z := Z.quot (Qnum q) (Z.pos (Qden q)).

End Py.

Import Py.

(* ===================================================================== *)
(** * Binary64 arithmetic *)
(* ===================================================================== *)

(** A finite float is the rational it denotes.  An operation of the
    interpreter returns the exact result rounded to the nearest number with
    53 significant bits, ties to even, the subnormal numbers included.
    Overflow (a result of magnitude 2^1024 or more) is outside the model. *)
Module Binary64.
Local Open Scope Q_scope.

(** The exponent [e] of the binade of a positive rational:
    [2^e <= q < 2^(e+1)]. *)
Definition binade (q : Q) : Z :=
  let e := (Z.log2 (Qnum q) - Z.log2 (Z.pos (Qden q)))%Z in
  if Qle_bool (2 ^ e) q then e else (e - 1)%Z.

(** The unit in the last place of the numbers of the binade of [q]. *)
Definition ulp (q : Q) : Q := 2 ^ Z.max (binade q - 52) (-1074).

(** The multiple of [ulp q] nearest to a positive [q]. *)
Definition nearest (q : Q) : Q := inject_Z (round_half_even (q / ulp q)) * ulp q.

(** Rounding to the nearest binary64 number. *)
Definition fl (q : Q) : Q :=
  let q := Qred q in
  match Qcompare q 0 with
  | Gt => nearest q
  | Lt => - nearest (- q)
  | Eq => 0
  end.

(** [x + y], [x * y], [x / y] on floats. *)
Definition add (x y : Q) : Q := fl (x + y).

Definition mul (x y : Q) : Q := fl (x * y).

Definition div (x y : Q) : Q := fl (x / y).

(** [float(n)] for an int, as in [n * x]. *)
Definition of_int (n : Z) : Q := fl (inject_Z n).

(** [round(x, 2)]: the decimal with two digits nearest to the exact value
    of [x], ties to even, then the float nearest to that decimal. *)
Definition round2 (x : Q) : Q := fl (Py.round2 x).

End Binary64.

Notation "'let!' x ':=' m 'in' k" := (Py.bind m (fun x => k))
  (at level 10, x name, m at level 100, k at level 200, only parsing).

(** Library code the sources call and that is not part of the repository. *)
Class Platform : Type := {
  (** [s.lower()] (Unicode case mapping) *)
  str_lower : str -> str;
  (** [xxhash.xxh64(s).hexdigest()] *)
  xxh64_hexdigest : str -> str;
  (** [json.loads(s)] *)
  json_loads : str -> result json;
  (** [re.compile(re.escape(p), re.IGNORECASE).search(s) is not None] *)
  re_search_ignorecase : str -> str -> bool;
  (** pydantic's validation of a decoded value against the type [float] *)
  validate_float : json -> option Q;
}.

(* ===================================================================== *)
(** * models.py *)
(* ===================================================================== *)

Inductive SynthesisStrategy : Type :=
| DIRECT_TASK
| SCENARIO_BASED
| CONVERSATION
| EDGE_CASE.

(** [SynthesisStrategy(value)] *)
Definition SynthesisStrategy_of (value : str) : result SynthesisStrategy :=
  if decide (value = lit "direct_task") then Returns DIRECT_TASK
  else if decide (value = lit "scenario_based") then Returns SCENARIO_BASED
  else if decide (value = lit "conversation") then Returns CONVERSATION
  else if decide (value = lit "edge_case") then Returns EDGE_CASE
  else Raises ValueError.

Module Skill.

Record t : Type := new {
  name : str;
  content : str;
  source : str;
  tags : list str;
  metadata : list (str * json);
}.

(** The text whose hash is the identity. *)
Definition normalized `{Platform} (text : str) : str := str_lower (strip text).

(** [xxhash.xxh64(text)] encodes the text as UTF-8 before hashing it. *)
Definition id `{Platform} (self : t) : result str :=
  let text := normalized (content self) in
  if encodable text then Returns (xxh64_hexdigest text)
  else Raises UnicodeEncodeError.

End Skill.

(* ===================================================================== *)
(** * collectors/__init__.py *)
(* ===================================================================== *)

Module Collectors.
Section WithPlatform.
Context `{Platform}.

(** [_run(c)]: what [c.collect()] did, with a failure turned into no skill. *)
Definition _run (collected : result (list Skill.t)) : list Skill.t :=
  match collected with
  | Returns skills => skills
  | Raises _ => []
  end.

(** The deduplication loop, from a given [seen] and [unique]; nothing
    guards the evaluation of [skill.id]. *)
Fixpoint dedup_loop (seen : gset str) (unique : list Skill.t)
         (all_skills : list Skill.t) : result (list Skill.t) :=
  match all_skills with
  | [] => Returns unique
  | skill :: rest =>
      let! id := Skill.id skill in
      if decide (id ∈ seen)
      then dedup_loop seen unique rest
      else
        let! id := Skill.id skill in
        dedup_loop ({[id]} ∪ seen) (unique ++ [skill]) rest
  end.

(** [all_skills = [s for batch in results for s in batch]] *)
Definition all_skills (collected : list (result (list Skill.t))) : list Skill.t :=
  concat (_run <$> collected).

(** [collect_all], given what each collector's [collect()] did, in the
    order of the collectors ([asyncio.gather] keeps that order). *)
Definition collect_all (collected : list (result (list Skill.t)))
    : result (list Skill.t) :=
  dedup_loop ∅ [] (all_skills collected).

End WithPlatform.
End Collectors.

(* ===================================================================== *)
(** * config.py (the settings the modelled code reads) *)
(* ===================================================================== *)

Module SkillFilterConfig.

Record t : Type := new {
  min_length : Z;
  max_length : Z;
  min_words : Z;
  ascii_ratio : Q;
  blacklist_patterns : list str;
}.

(** The field defaults of the class. *)
Definition default : t :=
  {| min_length := 50;
     max_length := 10000;
     min_words := 10;
     ascii_ratio := 7 # 10;
     blacklist_patterns := [] |}.

Definition with_min_length (n : Z) (cfg : t) : t :=
  {| min_length := n;
     max_length := max_length cfg;
     min_words := min_words cfg;
     ascii_ratio := ascii_ratio cfg;
     blacklist_patterns := blacklist_patterns cfg |}.

End SkillFilterConfig.

(* ===================================================================== *)
(** * filters/heuristic.py *)
(* ===================================================================== *)

Module HeuristicFilter.
Section WithPlatform.
Context `{Platform}.

(** [sum(1 for c in content if ord(c) < 128)] *)
Definition ascii_count (content : str) : Z :=
  len (List.filter (fun c => (c <? 128)%N) content).

(** [ascii_count / len(content)], for a non-empty content. *)
Definition ascii_fraction (content : str) : Q :=
  (inject_Z (ascii_count content) / inject_Z (len content))%Q.

Definition below (x y : Q) : bool :=
  match Qcompare x y with Lt => true | _ => false end.

Definition _accept (cfg : SkillFilterConfig.t) (skill : Skill.t) : bool :=
  let content := strip (Skill.content skill) in
  (* Length check *)
  if (len content <? SkillFilterConfig.min_length cfg)
     || (len content >? SkillFilterConfig.max_length cfg) then false
  (* Word count check *)
  else if len (split_ws content) <? SkillFilterConfig.min_words cfg then false
  (* ASCII ratio check *)
  else if match content with
          | [] => false
          | _ => below (ascii_fraction content) (SkillFilterConfig.ascii_ratio cfg)
          end then false
  (* Blacklist patterns *)
  else if existsb (fun p => re_search_ignorecase p content)
                  (SkillFilterConfig.blacklist_patterns cfg) then false
  else true.

Definition filter (cfg : SkillFilterConfig.t) (skills : list Skill.t) : list Skill.t :=
  List.filter (_accept cfg) skills.

End WithPlatform.
End HeuristicFilter.

(* ===================================================================== *)
(** * llm/base.py *)
(* ===================================================================== *)

(** One chat message, [{"role": ..., "content": ...}]. *)
Module Message.

Record t : Type := new {
  role : str;
  content : str;
}.

End Message.

Module BaseLLMClient.

(** A client.  The first argument of a method names the invocation: a
    backend may answer the same messages differently from call to call, and
    may fail.  [generate] is abstract in the base class; [generate_json] may
    be overridden (the OpenAI client does). *)
Record t : Type := new {
  generate : nat -> list Message.t -> Q -> Z -> result str;
  generate_json : nat -> list Message.t -> Q -> Z -> result json;
}.

Section WithPlatform.
Context `{Platform}.

Definition fence : str := lit "```".

Definition newline : N := 10%N.

(** [_extract_json(text)] *)
Definition _extract_json (text : str) : result json :=
  let text := strip text in
  let text :=
    if startswith fence text then
      let lines := split_on newline text in
      (* Remove first line and last line *)
      let lines := drop 1 lines in
      let lines :=
        match last lines with
        | Some l => if decide (strip l = fence) then removelast lines else lines
        | None => lines
        end in
      strip (join [newline] lines)
    else text in
  json_loads text.

(** The [generate_json] of the base class, over a given [generate]. *)
Definition base_generate_json (generate : nat -> list Message.t -> Q -> Z -> result str)
    (call : nat) (messages : list Message.t) (temperature : Q) (max_tokens : Z)
    : result json :=
  let! response := generate call messages temperature max_tokens in
  _extract_json response.

(** A client that only implements [generate]. *)
Definition of_generate (generate : nat -> list Message.t -> Q -> Z -> result str) : t :=
  {| generate := generate; generate_json := base_generate_json generate |}.

End WithPlatform.
End BaseLLMClient.

(* ===================================================================== *)
(** * Format strings ([str.format] with keyword arguments) *)
(* ===================================================================== *)

Module Format.

(** A format string, already split at its replacement fields; the doubled
    braces of the source are single braces of a [Text]. *)
Inductive piece : Type :=
| Text (s : str)
| Field (name : str).

Abbreviation template := (list piece).

Inductive arg : Type :=
| ArgStr (s : str)
| ArgInt (n : Z).

Definition render (a : arg) : str :=
  match a with
  | ArgStr s => s
  | ArgInt n => str_of_int n
  end.

Fixpoint kwarg (name : str) (kwargs : list (str * arg)) : option arg :=
  match kwargs with
  | [] => None
  | (k, a) :: rest => if decide (k = name) then Some a else kwarg name rest
  end.

(** [template.format(k1=v1, ...)]; a field without argument raises. *)
Fixpoint format (tpl : template) (kwargs : list (str * arg)) : result str :=
  match tpl with
  | [] => Returns []
  | Text s :: rest =>
      let! tail := format rest kwargs in Returns (s ++ tail)
  | Field name :: rest =>
      match kwarg name kwargs with
      | Some a => let! tail := format rest kwargs in Returns (render a ++ tail)
      | None => Raises KeyError
      end
  end.

(** Whether a template has the replacement field [name]. *)
Definition has_field (name : str) (tpl : template) : bool :=
  existsb (fun p => match p with
                    | Field f => bool_decide (f = name)
                    | Text _ => false
                    end) tpl.

(** [sys.int_info.default_max_str_digits]: since Python 3.11, [str(n)]
    raises ValueError for an int of more digits. *)
Definition max_str_digits : Z := 4300.

Definition within_max_str_digits (n : Z) : bool := Z.abs n <? 10 ^ max_str_digits.

(** The double quote character. *)
Definition dq : str := [34%N].

End Format.

(* ===================================================================== *)
(** * synthesis/prompts.py *)
(* ===================================================================== *)

Module Prompts.
Import Format.

Definition DIRECT_TASK_PROMPT : template :=
  [ Text (lit "You are generating diverse, high-quality training data for an AI assistant.

Given the following expert skill/prompt, generate ");
    Field (lit "n");
    Text (lit " diverse user queries that someone would ask an expert with this skill, along with detailed expert responses.

Skill/Prompt:
---
");
    Field (lit "skill_content");
    Text (lit "
---

Requirements:
- Each query should be realistic and specific
- Responses should demonstrate deep expertise from the skill
- Vary the difficulty: include easy, medium, and hard queries
- Responses should be detailed, actionable, and educational
- Do NOT generate meta-commentary about the skill itself

Respond with a JSON object:
{" ++ dq ++ lit "samples" ++ dq ++ lit ": [
  {" ++ dq ++ lit "instruction" ++ dq ++ lit ": " ++ dq ++ lit "user query" ++ dq ++ lit ", " ++ dq ++ lit "response" ++ dq ++ lit ": " ++ dq ++ lit "expert response" ++ dq ++ lit ", " ++ dq ++ lit "difficulty" ++ dq ++ lit ": " ++ dq ++ lit "easy|medium|hard" ++ dq ++ lit "},
  ...
]}") ].

Definition SCENARIO_BASED_PROMPT : template :=
  [ Text (lit "You are generating scenario-based training data for an AI assistant.

Given the following expert skill/prompt, first create ");
    Field (lit "n");
    Text (lit " concrete, realistic scenarios where this expertise would be needed. Then generate a user question and expert answer for each scenario.

Skill/Prompt:
---
");
    Field (lit "skill_content");
    Text (lit "
---

Requirements:
- Each scenario should be a specific, realistic situation (e.g., a startup founder, a student, a team lead)
- The question should naturally arise from the scenario context
- The response should be tailored to the specific scenario
- Include practical, actionable advice

Respond with a JSON object:
{" ++ dq ++ lit "samples" ++ dq ++ lit ": [
  {" ++ dq ++ lit "scenario" ++ dq ++ lit ": " ++ dq ++ lit "brief scenario description" ++ dq ++ lit ", " ++ dq ++ lit "instruction" ++ dq ++ lit ": " ++ dq ++ lit "user question in context" ++ dq ++ lit ", " ++ dq ++ lit "response" ++ dq ++ lit ": " ++ dq ++ lit "expert response tailored to scenario" ++ dq ++ lit ", " ++ dq ++ lit "difficulty" ++ dq ++ lit ": " ++ dq ++ lit "easy|medium|hard" ++ dq ++ lit "},
  ...
]}") ].

Definition CONVERSATION_PROMPT : template :=
  [ Text (lit "You are generating multi-turn conversation training data for an AI assistant.

Given the following expert skill/prompt, generate a realistic ");
    Field (lit "n");
    Text (lit "-turn conversation between a user and an AI assistant with this expertise. Each turn should build on the previous one, showing progressively deeper engagement.

Skill/Prompt:
---
");
    Field (lit "skill_content");
    Text (lit "
---

Requirements:
- The conversation should feel natural and progressive
- Each turn should add new information or go deeper
- The user should ask follow-up questions based on previous answers
- Responses should be thorough but conversational
- Extract each turn as an independent instruction-response pair (include enough context in the instruction)

Respond with a JSON object:
{" ++ dq ++ lit "samples" ++ dq ++ lit ": [
  {" ++ dq ++ lit "instruction" ++ dq ++ lit ": " ++ dq ++ lit "user message (with enough context to stand alone)" ++ dq ++ lit ", " ++ dq ++ lit "response" ++ dq ++ lit ": " ++ dq ++ lit "assistant response" ++ dq ++ lit ", " ++ dq ++ lit "difficulty" ++ dq ++ lit ": " ++ dq ++ lit "easy|medium|hard" ++ dq ++ lit "},
  ...
]}") ].

Definition EDGE_CASE_PROMPT : template :=
  [ Text (lit "You are generating edge-case training data for an AI assistant.

Given the following expert skill/prompt, generate ");
    Field (lit "n");
    Text (lit " challenging edge cases that test the boundaries of this expertise. Include:
1. An ambiguous or vague request that needs clarification
2. A request that's partially outside the scope (needs honest boundary-setting)
3. A common misconception that needs gentle correction
4. A highly advanced/complex question that pushes expertise limits

Skill/Prompt:
---
");
    Field (lit "skill_content");
    Text (lit "
---

Requirements:
- The assistant should handle each edge case gracefully
- For ambiguous requests: ask clarifying questions while providing preliminary guidance
- For out-of-scope: clearly state limitations while being maximally helpful
- For misconceptions: correct gently with explanation
- For advanced questions: provide thorough, nuanced responses

Respond with a JSON object:
{" ++ dq ++ lit "samples" ++ dq ++ lit ": [
  {" ++ dq ++ lit "edge_type" ++ dq ++ lit ": " ++ dq ++ lit "ambiguous|out_of_scope|misconception|advanced" ++ dq ++ lit ", " ++ dq ++ lit "instruction" ++ dq ++ lit ": " ++ dq ++ lit "user message" ++ dq ++ lit ", " ++ dq ++ lit "response" ++ dq ++ lit ": " ++ dq ++ lit "assistant response" ++ dq ++ lit ", " ++ dq ++ lit "difficulty" ++ dq ++ lit ": " ++ dq ++ lit "easy|medium|hard" ++ dq ++ lit "},
  ...
]}") ].

Definition STRATEGY_PROMPTS : list (str * template) :=
  [ (lit "direct_task", DIRECT_TASK_PROMPT);
    (lit "scenario_based", SCENARIO_BASED_PROMPT);
    (lit "conversation", CONVERSATION_PROMPT);
    (lit "edge_case", EDGE_CASE_PROMPT) ].

(** [STRATEGY_PROMPTS.get(strategy_name)] *)
Fixpoint get (table : list (str * template)) (strategy_name : str) : option template :=
  match table with
  | [] => None
  | (k, tpl) :: rest => if decide (k = strategy_name) then Some tpl else get rest strategy_name
  end.

End Prompts.

(* ===================================================================== *)
(** * models.py: TrainingSample and QualityVerdict *)
(* ===================================================================== *)

Module TrainingSample.

Record t : Type := new {
  instruction : str;
  response : str;
  system_prompt : str;
  skill_id : str;
  strategy : SynthesisStrategy;
  difficulty : str;
  quality_score : option Q;
  metadata : list (str * json);
}.

(** pydantic's validation of a decoded value against the type [str]. *)
Definition validate_str (v : json) : result str :=
  match v with
  | JStr s => Returns s
  | _ => Raises ValidationError
  end.

(** [sample.quality_score = score] *)
Definition set_quality_score (score : Q) (self : t) : t :=
  {| instruction := instruction self;
     response := response self;
     system_prompt := system_prompt self;
     skill_id := skill_id self;
     strategy := strategy self;
     difficulty := difficulty self;
     quality_score := Some score;
     metadata := metadata self |}.

End TrainingSample.

Module QualityVerdict.

Record t : Type := mk {
  clarity : Q;
  accuracy : Q;
  helpfulness : Q;
  alignment : Q;
  value : Q;
  reasoning : str;
}.

(** [Field(ge=1, le=5)] *)
Definition in_range (x : Q) : bool := Qle_bool 1 x && Qle_bool x 5.

(** [QualityVerdict(clarity=c, ..., reasoning=r)] on numbers. *)
Definition new (c a h al v : Q) (r : str) : result t :=
  if in_range c && in_range a && in_range h && in_range al && in_range v
  then Returns (mk c a h al v r)
  else Raises ValidationError.

(** The sum is taken from left to right, each operation rounding. *)
Definition overall (self : t) : Q :=
  Binary64.round2
    (Binary64.div
       (Binary64.add
          (Binary64.add
             (Binary64.add (Binary64.add (clarity self) (accuracy self))
                           (helpfulness self))
             (alignment self))
          (value self))
       5).

Section WithPlatform.
Context `{Platform}.

(** A required float field read from keyword arguments. *)
Definition required_float (kwargs : list (str * json)) (name : str) : result Q :=
  match dict_lookup name kwargs with
  | Some v => match validate_float v with
              | Some x => Returns x
              | None => Raises ValidationError
              end
  | None => Raises ValidationError
  end.

(** The construction from a decoded JSON value passed as keyword arguments:
    only a mapping can be unpacked; the five scores are required, the
    reasoning defaults to the empty text, other keys are ignored. *)
Definition of_kwargs (result_ : json) : result t :=
  match result_ with
  | JDict kwargs =>
      let! c := required_float kwargs (lit "clarity") in
      let! a := required_float kwargs (lit "accuracy") in
      let! h := required_float kwargs (lit "helpfulness") in
      let! al := required_float kwargs (lit "alignment") in
      let! v := required_float kwargs (lit "value") in
      let! r := match dict_lookup (lit "reasoning") kwargs with
                | Some x => TrainingSample.validate_str x
                | None => Returns []
                end in
      new c a h al v r
  | _ => Raises TypeError
  end.

End WithPlatform.
End QualityVerdict.

(* ===================================================================== *)
(** * config.py: synthesis and judge settings *)
(* ===================================================================== *)

Module SynthesisStrategyConfig.

Record t : Type := new {
  name : str;
  samples_per_skill : Z;
}.

End SynthesisStrategyConfig.

Module SynthesisConfig.

Record t : Type := new {
  strategies : list SynthesisStrategyConfig.t;
  concurrency : Z;
  temperature : Q;
}.

End SynthesisConfig.

Module LLMQualityConfig.

Record t : Type := new {
  enabled : bool;
  sample_ratio : Q;
  min_overall_score : Q;
}.

End LLMQualityConfig.

(* ===================================================================== *)
(** * synthesis/synthesizer.py *)
(* ===================================================================== *)

Module Synthesizer.

(** The object: the configuration, the client, and the permits of
    [asyncio.Semaphore(config.concurrency)]. *)
Record t : Type := mk {
  _cfg : SynthesisConfig.t;
  _llm : BaseLLMClient.t;
  _sem : Z;
}.

(** [Synthesizer(config, llm)]: the semaphore refuses a negative value. *)
Definition new (config : SynthesisConfig.t) (llm : BaseLLMClient.t) : result t :=
  if SynthesisConfig.concurrency config <? 0 then Raises ValueError
  else Returns (mk config llm (SynthesisConfig.concurrency config)).

Section WithPlatform.
Context `{Platform}.

(** [for item in items]: what the loop iterates over. *)
Definition iterate (items : json) : result (list json) :=
  match items with
  | JList l => Returns l
  | JDict entries => Returns (JStr ∘ fst <$> entries)
  | JStr s => Returns ((fun c => JStr [c]) <$> s)
  | _ => Raises TypeError
  end.

(** [v.strip()] on a decoded value: only a [str] has the method. *)
Definition method_strip (v : json) : result str :=
  match v with
  | JStr s => Returns (strip s)
  | _ => Raises AttributeError
  end.

(** [not s] for a [str]. *)
Definition is_empty (s : str) : bool :=
  match s with [] => true | _ => false end.

(** The body of the loop of [_parse_result] for one dict [item]: [None] is
    [continue].  The arguments of [TrainingSample] are evaluated in order,
    [skill.id] among them, before the model validates them. *)
Definition parse_item (skill : Skill.t) (strategy : SynthesisStrategy)
    (item : list (str * json)) : result (option TrainingSample.t) :=
  let! instruction := method_strip (dict_get item (lit "instruction") (JStr [])) in
  let! response := method_strip (dict_get item (lit "response") (JStr [])) in
  if is_empty instruction || is_empty response then Returns None
  else
    let! skill_id := Skill.id skill in
    let! difficulty :=
      TrainingSample.validate_str (dict_get item (lit "difficulty") (JStr (lit "medium"))) in
    Returns (Some
      {| TrainingSample.instruction := instruction;
         TrainingSample.response := response;
         TrainingSample.system_prompt := [];
         TrainingSample.skill_id := skill_id;
         TrainingSample.strategy := strategy;
         TrainingSample.difficulty := difficulty;
         TrainingSample.quality_score := None;
         TrainingSample.metadata :=
           [ (lit "skill_name", JStr (Skill.name skill));
             (lit "edge_type", dict_get item (lit "edge_type") (JStr []));
             (lit "scenario", dict_get item (lit "scenario") (JStr [])) ] |}).

(** The loop of [_parse_result], from the samples appended so far. *)
Fixpoint parse_items (skill : Skill.t) (strategy : SynthesisStrategy)
    (items : list json) (samples : list TrainingSample.t)
    : result (list TrainingSample.t) :=
  match items with
  | [] => Returns samples
  | JDict item :: rest =>
      let! parsed := parse_item skill strategy item in
      match parsed with
      | Some sample => parse_items skill strategy rest (samples ++ [sample])
      | None => parse_items skill strategy rest samples
      end
  | _ :: rest => parse_items skill strategy rest samples
  end.

Definition _parse_result (result_ : json) (skill : Skill.t) (strategy_name : str)
    : result (list TrainingSample.t) :=
  let! strategy := SynthesisStrategy_of strategy_name in
  match result_ with
  | JDict entries =>
      let! items := iterate (dict_get entries (lit "samples") (JList [])) in
      parse_items skill strategy items []
  | JList l => parse_items skill strategy l []
  | _ => Returns []
  end.

Definition system_message : Message.t :=
  {| Message.role := lit "system";
     Message.content :=
       lit "You are a training data generation expert. Always respond with valid JSON." |}.

Definition user_message (prompt : str) : Message.t :=
  {| Message.role := lit "user"; Message.content := prompt |}.

(** [_synthesize_one]; [call] names the invocation of the client.  The
    coroutine first takes a permit of the semaphore and gives it back when
    it ends: when there is a permit at all, every coroutine gets one in its
    turn; when there is none, it waits for ever.  The prompt is built
    before the [try]. *)
Definition _synthesize_one (self : t) (call : nat)
    (skill : Skill.t) (strategy_name : str) (n_samples : Z)
    : awaited (list TrainingSample.t) :=
  if _sem self <=? 0 then Suspended
  else
    Finished
      match Prompts.get Prompts.STRATEGY_PROMPTS strategy_name with
      | None => Returns []
      | Some [] => Returns []
      | Some prompt_template =>
          let! prompt :=
            if Format.has_field (lit "n") prompt_template
               && negb (Format.within_max_str_digits n_samples)
            then Raises ValueError
            else
              Format.format prompt_template
                [ (lit "skill_content", Format.ArgStr (take 3000 (Skill.content skill)));
                  (lit "n", Format.ArgInt n_samples) ] in
          try_except
            (let! result_ :=
               BaseLLMClient.generate_json (_llm self) call
                 [system_message; user_message prompt]
                 (SynthesisConfig.temperature (_cfg self)) 2048 in
             _parse_result result_ skill strategy_name)
            (fun _ => Returns [])
      end.

(** The coroutines of [synthesize_all], in the order they are created; the
    [i]-th one is the [i]-th invocation of the client. *)
Definition work_items (cfg : SynthesisConfig.t) (skills : list Skill.t)
    : list (Skill.t * SynthesisStrategyConfig.t) :=
  skill ← skills; strategy_cfg ← SynthesisConfig.strategies cfg; [(skill, strategy_cfg)].

Definition coro (self : t) (i : nat) (item : Skill.t * SynthesisStrategyConfig.t)
    : awaited (list TrainingSample.t) :=
  _synthesize_one self i (fst item)
    (SynthesisStrategyConfig.name (snd item))
    (SynthesisStrategyConfig.samples_per_skill (snd item)).

Definition is_suspended {A} (c : awaited A) : bool :=
  match c with Suspended => true | Finished _ => false end.

(** The loop over [asyncio.as_completed(coros)]: [completion] lists the
    coroutines that finish, in the order they finish; awaiting one that
    raised raises; once they are all through, the loop waits for the
    others, for ever when there are any. *)
Fixpoint gather_completed (coros : list (awaited (list TrainingSample.t)))
    (completion : list nat) (all_samples : list TrainingSample.t)
    : awaited (list TrainingSample.t) :=
  match completion with
  | [] => if existsb is_suspended coros then Suspended else Finished (Returns all_samples)
  | i :: rest =>
      match coros !! i with
      | Some (Finished (Returns samples)) =>
          gather_completed coros rest (all_samples ++ samples)
      | Some (Finished (Raises e)) => Finished (Raises e)
      | Some Suspended | None => gather_completed coros rest all_samples
      end
  end.

(** [synthesize_all].  The semaphore decides which coroutines run together,
    hence in which order they finish; that order is [completion]. *)
Definition synthesize_all (self : t) (completion : list nat) (skills : list Skill.t)
    : awaited (list TrainingSample.t) :=
  gather_completed (imap (coro self) (work_items (_cfg self) skills)) completion [].

End WithPlatform.
End Synthesizer.

(* ===================================================================== *)
(** * filters/llm_filter.py *)
(* ===================================================================== *)

Module LLMQualityFilter.
Import Format.

Definition QUALITY_PROMPT : template :=
  [ Text (lit "You are a training data quality evaluator. Assess the following instruction-response pair on these criteria (1-5 scale each):

1. **Clarity**: Is the instruction clear and well-formed?
2. **Accuracy**: Is the response factually correct and precise?
3. **Helpfulness**: Does the response fully address the instruction?
4. **Alignment**: Is the response safe, ethical, and well-aligned?
5. **Value**: Does this example teach useful knowledge or skills?

Instruction:
");
    Field (lit "instruction");
    Text (lit "

Response:
");
    Field (lit "response");
    Text (lit "

Respond with ONLY a JSON object:
{" ++ dq ++ lit "clarity" ++ dq ++ lit ": <1-5>, " ++ dq ++ lit "accuracy" ++ dq ++ lit ": <1-5>, " ++ dq ++ lit "helpfulness" ++ dq ++ lit ": <1-5>, " ++ dq ++ lit "alignment" ++ dq ++ lit ": <1-5>, " ++ dq ++ lit "value" ++ dq ++ lit ": <1-5>, " ++ dq ++ lit "reasoning" ++ dq ++ lit ": " ++ dq ++ lit "<brief explanation>" ++ dq ++ lit "}") ].

(** The samples are Python objects: a sample is known by its address
    ([id(sample)]), its fields live in the store, and a list of samples is a
    list of addresses, in which an object may occur more than once. *)
Abbreviation store := (gmap nat TrainingSample.t).

Section WithPlatform.
Context `{Platform}.

(** [max(1, int(len(samples) * sample_ratio))]: the int becomes a float,
    the product is rounded, and [int] truncates it. *)
Definition sample_count (cfg : LLMQualityConfig.t) (samples : list nat) : Z :=
  Z.max 1 (int_of_float
             (Binary64.mul (Binary64.of_int (len samples))
                           (LLMQualityConfig.sample_ratio cfg))).

(** The second argument of [random.sample]. *)
Definition sample_size (cfg : LLMQualityConfig.t) (samples : list nat) : nat :=
  Z.to_nat (Z.min (sample_count cfg samples) (len samples)).

(** [random.sample(samples, k)]: [rng n k] are the positions the generator
    draws in a population of [n]. *)
Definition random_sample (rng : nat -> nat -> list nat) (samples : list nat) (k : nat)
    : list nat :=
  omap (fun i => samples !! i) (rng (length samples) k).


(** [_evaluate(s)] for the [j]-th selected sample. *)
Definition _evaluate (llm : BaseLLMClient.t) (objects : store) (j : nat) (s : nat)
    : nat * option QualityVerdict.t :=
  let attempt :=
    let! sample := match objects !! s with
                   | Some o => Returns o
                   | None => Raises AttributeError
                   end in
    let! prompt :=
      format QUALITY_PROMPT
        [ (lit "instruction", ArgStr (TrainingSample.instruction sample));
          (lit "response", ArgStr (TrainingSample.response sample)) ] in
    let! result_ :=
      BaseLLMClient.generate_json llm j
        [ {| Message.role := lit "user"; Message.content := prompt |} ]
        (1 # 10) 512 in
    QualityVerdict.of_kwargs result_ in
  match attempt with
  | Returns verdict => (s, Some verdict)
  | Raises _ => (s, None)
  end.

(** The subset drawn for evaluation. *)
Definition to_evaluate (cfg : LLMQualityConfig.t) (rng : nat -> nat -> list nat)
    (samples : list nat) : list nat :=
  random_sample rng samples (sample_size cfg samples).

(** [scored = [(s, v) for s, v in verdicts if v is not None]] *)
Definition scored_of (verdicts : list (nat * option QualityVerdict.t))
    : list (nat * QualityVerdict.t) :=
  omap (fun sv => match snd sv with Some v => Some (fst sv, v) | None => None end) verdicts.

Definition at_least (x y : Q) : bool := Qle_bool y x.

Definition less_than (x y : Q) : bool := negb (Qle_bool y x).

Definition sum (scores : list Q) : Q := foldl Qplus 0%Q scores.

Definition minimum (scores : list Q) : Q :=
  match scores with
  | [] => 0%Q
  | x :: rest => foldl (fun m y => if less_than y m then y else m) x rest
  end.

Definition maximum (scores : list Q) : Q :=
  match scores with
  | [] => 0%Q
  | x :: rest => foldl (fun m y => if less_than m y then y else m) x rest
  end.

Definition statistics (cfg : LLMQualityConfig.t) (scored : list (nat * QualityVerdict.t))
    : list (str * json) :=
  let scores := (fun sv => QualityVerdict.overall (snd sv)) <$> scored in
  let passed :=
    len (List.filter (fun sc => at_least sc (LLMQualityConfig.min_overall_score cfg)) scores) in
  [ (lit "evaluated", JInt (len scored));
    (lit "mean_score", JFloat (round2 (sum scores / inject_Z (len scores))%Q));
    (lit "min_score", JFloat (minimum scores));
    (lit "max_score", JFloat (maximum scores));
    (lit "pass_rate", JFloat (round2 (inject_Z passed / inject_Z (len scored))%Q)) ].

(** Mark quality scores on evaluated samples. *)
Definition mark (objects : store) (scored : list (nat * QualityVerdict.t)) : store :=
  foldl (fun objs sv =>
           alter (TrainingSample.set_quality_score (QualityVerdict.overall (snd sv)))
                 (fst sv) objs)
        objects scored.

(** The addresses of the samples evaluated below the threshold. *)
Definition fail_ids (cfg : LLMQualityConfig.t) (scored : list (nat * QualityVerdict.t))
    : gset nat :=
  foldl (fun ids sv =>
           if less_than (QualityVerdict.overall (snd sv))
                        (LLMQualityConfig.min_overall_score cfg)
           then {[fst sv]} ∪ ids else ids)
        ∅ scored.

(** [filter]: the retained samples, the statistics and the store after the
    call. *)
Definition filter (cfg : LLMQualityConfig.t) (llm : BaseLLMClient.t)
    (rng : nat -> nat -> list nat) (objects : store) (samples : list nat)
    : list nat * list (str * json) * store :=
  if negb (LLMQualityConfig.enabled cfg) || bool_decide (samples = [])
  then (samples, [], objects)
  else
    let verdicts := imap (_evaluate llm objects) (to_evaluate cfg rng samples) in
    let scored := scored_of verdicts in
    match scored with
    | [] => (samples, [(lit "evaluated", JInt 0)], objects)
    | _ =>
        let stats := statistics cfg scored in
        let objects' := mark objects scored in
        let failed := fail_ids cfg scored in
        (List.filter (fun s => bool_decide (s ∉ failed)) samples, stats, objects')
    end.

End WithPlatform.
End LLMQualityFilter.

(* ===================================================================== *)
(** * Vocabulary of the statements *)
(* ===================================================================== *)

Module Spec.

(** JSON whitespace, as [json.loads] skips it. *)
Definition json_whitespace (c : N) : bool :=
  ((c =? 32) || (c =? 9) || (c =? 10) || (c =? 13))%N.

(** The characters a JSON value can start with, for Python's decoder: an
    object, an array, a string, a number, [true], [false], [null], and the
    constants [NaN], [Infinity], [-Infinity]. *)
Definition value_start (c : N) : bool :=
  ((c =? 123) || (c =? 91) || (c =? 34) || (c =? 45)
   || (48 <=? c) && (c <=? 57)
   || (c =? 116) || (c =? 102) || (c =? 110) || (c =? 78) || (c =? 73))%N.

(** What is assumed of [json.loads]: a text it decodes is a value, possibly
    after whitespace. *)
Definition decodes_values_only (loads : str -> result json) : Prop :=
  ∀ s v, loads s = Returns v →
    ∃ ws c rest, s = ws ++ c :: rest
                 ∧ Forall (fun x => json_whitespace x = true) ws
                 ∧ value_start c = true.

(** The fenced form of a text. *)
Definition fenced (t : str) : str :=
  lit "```json" ++ [BaseLLMClient.newline] ++ t ++ [BaseLLMClient.newline] ++ lit "```".

(** The sequence a decoded answer holds: a bare sequence, or the sequence
    under the key [samples] of a mapping (none when the key is absent). *)
Definition sequence_of (answer : json) : option (list json) :=
  match answer with
  | JList items => Some items
  | JDict entries =>
      match dict_lookup (lit "samples") entries with
      | Some (JList items) => Some items
      | Some _ => None
      | None => Some []
      end
  | _ => None
  end.

(** An entry is usable when it is a mapping whose [instruction] and
    [response] are texts that are not empty after trimming; it then yields
    the two trimmed texts. *)
Definition usable (entry : json) : option (str * str) :=
  match entry with
  | JDict fields =>
      match dict_lookup (lit "instruction") fields, dict_lookup (lit "response") fields with
      | Some (JStr i), Some (JStr r) =>
          match strip i, strip r with
          | _ :: _, _ :: _ => Some (strip i, strip r)
          | _, _ => None
          end
      | _, _ => None
      end
  | _ => None
  end.

(** The trimmed texts of the usable entries of an answer, in order. *)
Definition usable_entries (answer : json) : list (str * str) :=
  match sequence_of answer with
  | Some items => omap usable items
  | None => []
  end.











End Spec.

(* ===================================================================== *)
(** * A platform and inputs for the examples *)
(* ===================================================================== *)

Module Demo.

(** Lower-casing of the ASCII letters. *)
Definition ascii_lower (s : str) : str :=
  (fun c => if ((65 <=? c) && (c <=? 90))%N then (c + 32)%N else c) <$> s.

(** A stand-in for the hash: the text itself. *)
Definition digest (s : str) : str := s.

(** A decoder that knows two documents, the empty object and the empty
    array, with JSON whitespace around them. *)
Fixpoint skip_whitespace (s : str) : str :=
  match s with
  | c :: s' => if Spec.json_whitespace c then skip_whitespace s' else s
  | [] => []
  end.

Definition loads (s : str) : result json :=
  let body := reverse (skip_whitespace (reverse (skip_whitespace s))) in
  if decide (body = lit "{}") then Returns (JDict [])
  else if decide (body = lit "[]") then Returns (JList [])
  else Raises JSONDecodeError.

(** Plain substring search. *)
Fixpoint search (p s : str) : bool :=
  startswith p s || match s with [] => false | _ :: s' => search p s' end.

Definition as_float (v : json) : option Q :=
  match v with
  | JInt z => Some (inject_Z z)
  | JFloat q => Some q
  | _ => None
  end.

Definition platform : Platform :=
  {| str_lower := ascii_lower;
     xxh64_hexdigest := digest;
     json_loads := loads;
     re_search_ignorecase := search;
     validate_float := as_float |}.

Definition skill (name : string) (content : str) (source : string) : Skill.t :=
  {| Skill.name := lit name;
     Skill.content := content;
     Skill.source := lit source;
     Skill.tags := [];
     Skill.metadata := [] |}.

(** The answer of the stub client of the scenario. *)
Definition stub_answer : json :=
  JDict [ (lit "samples",
           JList [ JDict [ (lit "instruction", JStr (lit "Q1"));
                           (lit "response", JStr (lit "A1")) ];
                   JDict [ (lit "instruction", JStr []);
                           (lit "response", JStr (lit "A2")) ] ]) ].

(** The answer of the stub client with the instruction of the second entry
    missing ([null]): that entry is not usable, the first one is. *)
Definition null_instruction_answer : json :=
  JDict [ (lit "samples",
           JList [ JDict [ (lit "instruction", JStr (lit "Q1"));
                           (lit "response", JStr (lit "A1")) ];
                   JDict [ (lit "instruction", JNull);
                           (lit "response", JStr (lit "A2")) ] ]) ].

(** The same, as a bare sequence, with a number for the instruction. *)
Definition number_instruction_answer : json :=
  JList [ JDict [ (lit "instruction", JStr (lit "Q1"));
                  (lit "response", JStr (lit "A1")) ];
          JDict [ (lit "instruction", JInt 5);
                  (lit "response", JStr (lit "A2")) ] ].

(** The sample the scenario expects from [stub_answer], for a skill of id
    [skill_id]. *)
Definition sample_Q1 (skill_id : str) (skill : Skill.t) (strategy : SynthesisStrategy)
    : TrainingSample.t :=
  {| TrainingSample.instruction := lit "Q1";
     TrainingSample.response := lit "A1";
     TrainingSample.system_prompt := [];
     TrainingSample.skill_id := skill_id;
     TrainingSample.strategy := strategy;
     TrainingSample.difficulty := lit "medium";
     TrainingSample.quality_score := None;
     TrainingSample.metadata :=
       [ (lit "skill_name", JStr (Skill.name skill));
         (lit "edge_type", JStr []);
         (lit "scenario", JStr []) ] |}.

(** The stub client of the scenario: it always answers [stub_answer]. *)
Definition stub_llm : BaseLLMClient.t :=
  {| BaseLLMClient.generate := fun _ _ _ _ => Raises ProviderError;
     BaseLLMClient.generate_json := fun _ _ _ _ => Returns stub_answer |}.

(** A client whose first call fails and whose other calls answer
    [stub_answer]. *)
Definition failing_first_llm : BaseLLMClient.t :=
  {| BaseLLMClient.generate := fun _ _ _ _ => Raises ProviderError;
     BaseLLMClient.generate_json :=
       fun call _ _ _ =>
         match call with
         | O => Raises ProviderError
         | S _ => Returns stub_answer
         end |}.

Definition synthesis_config_at (concurrency : Z) (strategies : list (string * Z))
    : SynthesisConfig.t :=
  {| SynthesisConfig.strategies :=
       (fun s => {| SynthesisStrategyConfig.name := lit (fst s);
                    SynthesisStrategyConfig.samples_per_skill := snd s |}) <$> strategies;
     SynthesisConfig.concurrency := concurrency;
     SynthesisConfig.temperature := 8 # 10 |}.

(** The default concurrency. *)
Definition synthesis_config (strategies : list (string * Z)) : SynthesisConfig.t :=
  synthesis_config_at 10 strategies.

Definition recursion : Skill.t := skill "recursion" (lit "Explain recursion") "csv".

(** The id of [recursion] on [platform]. *)
Definition recursion_id : str := lit "explain recursion".

(** A client that always gives the same answer. *)
Definition answering_llm (answer : json) : BaseLLMClient.t :=
  {| BaseLLMClient.generate := fun _ _ _ _ => Raises ProviderError;
     BaseLLMClient.generate_json := fun _ _ _ _ => Returns answer |}.

(** A synthesizer with the default concurrency. *)
Definition synthesizer (strategies : list (string * Z)) (llm : BaseLLMClient.t)
    : Synthesizer.t :=
  Synthesizer.mk (synthesis_config strategies) llm 10.

(** A synthesizer whose semaphore has no permit ([concurrency: 0]). *)
Definition stalled_synthesizer (strategies : list (string * Z)) (llm : BaseLLMClient.t)
    : Synthesizer.t :=
  Synthesizer.mk (synthesis_config_at 0 strategies) llm 0.

(** The same skill in two sources, in other letters, and another skill. *)
Definition explain_csv : Skill.t := skill "a" (lit "  Explain Recursion ") "csv".

Definition explain_github : Skill.t := skill "b" (lit "explain recursion") "github".

Definition sort_csv : Skill.t := skill "c" (lit "Sort a list") "csv".

(** A skill whose content is a lone surrogate, as the JSON escape
    [\ud800] decodes. *)
Definition lone_surrogate : Skill.t := skill "surrogate" [55296%N] "github".

(** A judge configuration. *)
Definition judge_config (ratio threshold : Q) : LLMQualityConfig.t :=
  {| LLMQualityConfig.enabled := true;
     LLMQualityConfig.sample_ratio := ratio;
     LLMQualityConfig.min_overall_score := threshold |}.

(** A generator that draws the first positions. *)
Definition first_positions (n k : nat) : list nat := seq 0 k.


Definition verdict (score : Z) : QualityVerdict.t :=
  QualityVerdict.mk (inject_Z score) (inject_Z score) (inject_Z score)
                    (inject_Z score) (inject_Z score) [].


(** The answer of a judge whose five scores have the mean 1.575. *)
Definition tie_answer : json :=
  JDict [ (lit "clarity", JInt 1); (lit "accuracy", JInt 1);
          (lit "helpfulness", JInt 1); (lit "alignment", JFloat (3 # 2));
          (lit "value", JFloat (27 # 8)) ].


(** Three sample objects, at the addresses 0, 1 and 2. *)
Definition three_objects : gmap nat TrainingSample.t :=
  let sample := sample_Q1 recursion_id recursion DIRECT_TASK in
  <[0%nat := sample]> (<[1%nat := sample]> (<[2%nat := sample]> ∅)).


(** The skill filter of the scenario: [min_length=50], the rest by default. *)
Definition skill_filter_config : SkillFilterConfig.t :=
  SkillFilterConfig.with_min_length 50 SkillFilterConfig.default.

(** 200 characters, 180 of them ASCII, in one word. *)
Definition one_long_word : str := replicate 180 97%N ++ replicate 20 233%N.

(** 200 characters, 180 of them ASCII, in twenty words. *)
Definition twenty_words : str :=
  mjoin (replicate 19 (replicate 8 97%N ++ [233%N; 32%N]))
  ++ replicate 9 97%N ++ [233%N].

End Demo.

(* ===================================================================== *)
(** * filters/heuristic.py: the sample filter *)
(* ===================================================================== *)

Module SampleFilterConfig.

Record t : Type := new {
  min_instruction_length : Z;
  max_instruction_length : Z;
  min_response_length : Z;
  max_response_length : Z;
  refusal_patterns : list str;
}.

(** The field defaults of the class. *)
Definition default : t :=
  {| min_instruction_length := 10;
     max_instruction_length := 2000;
     min_response_length := 50;
     max_response_length := 8000;
     refusal_patterns := [] |}.

End SampleFilterConfig.

Module SampleHeuristicFilter.
Section WithPlatform.
Context `{Platform}.

Definition _accept (cfg : SampleFilterConfig.t) (sample : TrainingSample.t) : bool :=
  let inst := strip (TrainingSample.instruction sample) in
  let resp := strip (TrainingSample.response sample) in
  (* Instruction length *)
  if len inst <? SampleFilterConfig.min_instruction_length cfg then false
  else if len inst >? SampleFilterConfig.max_instruction_length cfg then false
  (* Response length *)
  else if len resp <? SampleFilterConfig.min_response_length cfg then false
  else if len resp >? SampleFilterConfig.max_response_length cfg then false
  (* Refusal pattern detection (check start of response) *)
  else
    let response_start := take 200 resp in
    if existsb (fun p => re_search_ignorecase p response_start)
               (SampleFilterConfig.refusal_patterns cfg) then false
    else true.

(** The deduplication key: [sample.instruction.strip().lower()]. *)
Definition key (sample : TrainingSample.t) : str :=
  str_lower (strip (TrainingSample.instruction sample)).

(** The loop of [filter], from a given [seen_instructions] and [result]. *)
Fixpoint filter_loop (cfg : SampleFilterConfig.t) (seen_instructions : gset str)
    (result_ : list TrainingSample.t) (samples : list TrainingSample.t)
    : list TrainingSample.t :=
  match samples with
  | [] => result_
  | sample :: rest =>
      if negb (_accept cfg sample) then filter_loop cfg seen_instructions result_ rest
      else if decide (key sample ∈ seen_instructions)
      then filter_loop cfg seen_instructions result_ rest
      else filter_loop cfg ({[key sample]} ∪ seen_instructions) (result_ ++ [sample]) rest
  end.

Definition filter (cfg : SampleFilterConfig.t) (samples : list TrainingSample.t)
    : list TrainingSample.t :=
  filter_loop cfg ∅ [] samples.

End WithPlatform.
End SampleHeuristicFilter.

(* ===================================================================== *)
(** * llm/anthropic_client.py and llm/__init__.py *)
(* ===================================================================== *)

Module AnthropicClient.

(** The loop of [generate] that takes the system message out: the state is
    the [system] text and the [user_messages] so far. *)
Fixpoint split_messages (system : str) (user_messages : list Message.t)
    (messages : list Message.t) : str * list Message.t :=
  match messages with
  | [] => (system, user_messages)
  | msg :: rest =>
      if decide (Message.role msg = lit "system")
      then split_messages (Message.content msg) user_messages rest
      else split_messages system (user_messages ++ [msg]) rest
  end.

(** [msg["role"] == "system"] *)
Definition is_system (msg : Message.t) : bool :=
  bool_decide (Message.role msg = lit "system").

(** The keyword arguments of [messages.create]: the model, the messages, the
    token ceiling, the temperature, and the system text when it is not
    empty. *)
Record request : Type := mk_request {
  req_model : str;
  req_messages : list Message.t;
  req_max_tokens : Z;
  req_temperature : Q;
  req_system : option str;
}.

Definition build_request (model : str) (messages : list Message.t)
    (temperature : Q) (max_tokens : Z) : request :=
  let '(system, user_messages) := split_messages [] [] messages in
  {| req_model := model;
     req_messages := user_messages;
     req_max_tokens := max_tokens;
     req_temperature := temperature;
     req_system := match system with [] => None | _ => Some system end |}.

End AnthropicClient.

Module Statements.

(** The first element of each key, skipping the keys of [seen]. *)
Fixpoint first_by_key {A} (key : A -> str) (seen : gset str) (l : list A) : list A :=
  match l with
  | [] => []
  | x :: rest =>
      if decide (key x ∈ seen) then first_by_key key seen rest
      else x :: first_by_key key ({[key x]} ∪ seen) rest
  end.

(** A text without whitespace at either end. *)
Definition trimmed (s : str) : Prop := strip s = s.

(** A number at least [10^-12] away from every midpoint between two
    consecutive integers. *)
Definition clear_of_ties (x : Q) : Prop :=
  ∀ k : Z, (x + (1 # 10 ^ 12) <= inject_Z k + (1 # 2)
            ∨ inject_Z k + (1 # 2) + (1 # 10 ^ 12) <= x)%Q.

(** A skill whose normalized content has a UTF-8 encoding, so that it can
    be hashed. *)
Definition hashable `{Platform} (skill : Skill.t) : Prop :=
  encodable (Skill.normalized (Skill.content skill)) = true.

(** The id of a skill, where it has one. *)
Definition id_or_empty `{Platform} (skill : Skill.t) : str :=
  match Skill.id skill with Returns i => i | Raises _ => [] end.

End Statements.

(* ===================================================================== *)
(** * collectors/github_repo.py: the JSON parser of a file *)
(* ===================================================================== *)

Module GitHubRepoCollector.
Section WithPlatform.
Context `{Platform}.

(** [PurePosixPath(path).stem], library code. *)
Variable stem : str -> str.

(** The truth value of a decoded value ([bool(v)]). *)
Definition truthy (v : json) : bool :=
  match v with
  | JNull => false
  | JBool b => b
  | JInt z => negb (z =? 0)
  | JFloat q => negb (Qeq_bool q 0)
  | JStr s => match s with [] => false | _ => true end
  | JList l => match l with [] => false | _ => true end
  | JDict d => match d with [] => false | _ => true end
  end.

(** [data.get(key)]: [None] when the key is absent. *)
Definition get (data : list (str * json)) (key : string) : json :=
  dict_get data (lit key) JNull.

(** [a or b] *)
Definition or_else (a b : json) : json := if truthy a then a else b.

(** [_parse_json(content, path)] for the repository [repo]: the skill, or
    [None]. *)
Definition _parse_json (repo : str) (content : str) (path : str)
    : result (option Skill.t) :=
  match json_loads content with
  | Raises JSONDecodeError => Returns None
  | Raises e => Raises e
  | Returns (JDict data) =>
      (* Try common field names for the prompt content *)
      let prompt :=
        or_else (get data "System Prompt")
          (or_else (get data "system_prompt")
             (or_else (get data "prompt") (JStr []))) in
      match prompt with
      | JStr text =>
          match strip text with
          | [] => Returns None
          | _ =>
              let name :=
                or_else (get data "agent_name")
                  (or_else (get data "name")
                     (or_else (get data "title") (JStr (stem path)))) in
              let! name := TrainingSample.validate_str name in
              Returns (Some
                {| Skill.name := name;
                   Skill.content := strip text;
                   Skill.source := lit "github:" ++ repo ++ lit "/" ++ path;
                   Skill.tags := [lit "github"; lit "json"];
                   Skill.metadata := [ (lit "repo", JStr repo);
                                       (lit "path", JStr path) ] |})
          end
      | _ => Returns None
      end
  | Returns _ => Returns None
  end.

End WithPlatform.
End GitHubRepoCollector.

(* ===================================================================== *)
(** * More inputs for the examples *)
(* ===================================================================== *)

Module DemoSamples.

(** The sample filter of the scenario: the refusal pattern [I cannot]. *)
Definition refusal_config : SampleFilterConfig.t :=
  {| SampleFilterConfig.min_instruction_length := 10;
     SampleFilterConfig.max_instruction_length := 2000;
     SampleFilterConfig.min_response_length := 50;
     SampleFilterConfig.max_response_length := 8000;
     SampleFilterConfig.refusal_patterns := [lit "I cannot"] |}.

Definition sample (instruction response : string) : TrainingSample.t :=
  {| TrainingSample.instruction := lit instruction;
     TrainingSample.response := lit response;
     TrainingSample.system_prompt := [];
     TrainingSample.skill_id := lit "0123456789abcdef";
     TrainingSample.strategy := DIRECT_TASK;
     TrainingSample.difficulty := lit "medium";
     TrainingSample.quality_score := None;
     TrainingSample.metadata := [] |}.

Definition refusal : TrainingSample.t :=
  sample "How do I reverse a list in place?"
         "I cannot help with that request, but here is some general advice about lists.".

Definition answer : TrainingSample.t :=
  sample "How do I reverse a list in place?"
         "Swap the first and last elements, then move both indices towards the middle.".

End DemoSamples.
(* ===================================================================== *)
(** * Properties of the collectors *)
(* ===================================================================== *)

Section FirstByKey.
Context {A : Type} (key : A → str).
Import Statements.

Lemma first_by_key_sublist (l : list A) : ∀ seen,
  first_by_key key seen l `sublist_of` l.
Proof.
  induction l as [|x l IH]; intros seen; simpl; [done|].
  case_decide; [by apply sublist_cons|by apply sublist_skip].
Qed.

Lemma first_by_key_fresh (l : list A) : ∀ seen u,
  u ∈ first_by_key key seen l → key u ∉ seen.
Proof.
  induction l as [|x l IH]; intros seen u; simpl; [by intros ?%elem_of_nil|].
  case_decide as Hx; [by apply IH|].
  intros [->|Hu%IH]%elem_of_cons; [done|].
  intros Hseen. apply Hu. apply elem_of_union. by right.
Qed.

Lemma first_by_key_NoDup (l : list A) : ∀ seen,
  NoDup (key <$> first_by_key key seen l).
Proof.
  induction l as [|x l IH]; intros seen; simpl; [constructor|].
  case_decide; [apply IH|]. rewrite fmap_cons. constructor; [|apply IH].
  intros (u & Hk & Hu%first_by_key_fresh)%list_elem_of_fmap.
  apply Hu. apply elem_of_union. left. by apply elem_of_singleton.
Qed.

Lemma first_by_key_covers (l : list A) : ∀ seen x,
  x ∈ l → key x ∉ seen → ∃ u, u ∈ first_by_key key seen l ∧ key u = key x.
Proof.
  induction l as [|y l IH]; intros seen x; simpl; [by intros ?%elem_of_nil|].
  intros Hx Hnew. case_decide as Hy.
  - apply elem_of_cons in Hx as [->|Hx]; [done|]. by apply IH.
  - destruct (decide (key x = key y)) as [Heq|Hne].
    { exists y. split; [left|done]. }
    apply elem_of_cons in Hx as [->|Hx]; [done|].
    destruct (IH ({[key y]} ∪ seen) x Hx) as (u & Hu & Hk).
    { apply not_elem_of_union. split; [|done]. by apply not_elem_of_singleton. }
    exists u. split; [by right|done].
Qed.

Lemma first_by_key_first (l : list A) : ∀ seen u,
  u ∈ first_by_key key seen l →
  ∃ pre post, l = pre ++ u :: post ∧ ∀ x, x ∈ pre → key x ≠ key u.
Proof.
  induction l as [|y l IH]; intros seen u; simpl; [by intros ?%elem_of_nil|].
  case_decide as Hy.
  - intros Hu. pose proof (first_by_key_fresh _ _ _ Hu) as Hfresh.
    destruct (IH _ _ Hu) as (pre & post & -> & Hpre).
    exists (y :: pre), post. split; [done|].
    intros x [->|Hx]%elem_of_cons; [congruence|by apply Hpre].
  - intros [->|Hu]%elem_of_cons.
    + exists [], l. split; [done|]. by intros x ?%elem_of_nil.
    + pose proof (first_by_key_fresh _ _ _ Hu) as Hfresh.
      destruct (IH _ _ Hu) as (pre & post & -> & Hpre).
      exists (y :: pre), post. split; [done|].
      intros x [->|Hx]%elem_of_cons; [|by apply Hpre].
      intros Heq. apply Hfresh. apply elem_of_union. left.
      by apply elem_of_singleton.
Qed.

(** A list whose keys are distinct and new is kept whole. *)
Lemma first_by_key_distinct (l : list A) : ∀ seen,
  NoDup (key <$> l) → (∀ x, x ∈ l → key x ∉ seen) →
  first_by_key key seen l = l.
Proof.
  induction l as [|y l IH]; intros seen Hnd Hnew; simpl; [done|].
  rewrite fmap_cons in Hnd. apply NoDup_cons in Hnd as [Hy Hnd].
  rewrite decide_False by (apply Hnew; left). f_equal.
  apply IH; [done|]. intros x Hx.
  apply not_elem_of_union. split; [|apply Hnew; by right].
  apply not_elem_of_singleton. intros Heq. apply Hy. rewrite <-Heq.
  by apply list_elem_of_fmap_2.
Qed.

Lemma first_by_key_idempotent (l : list A) (seen : gset str) :
  first_by_key key seen (first_by_key key seen l) = first_by_key key seen l.
Proof.
  apply first_by_key_distinct; [apply first_by_key_NoDup|].
  intros x. apply first_by_key_fresh.
Qed.

End FirstByKey.

Section CollectorsProperties.
Context `{Platform}.
Import Collectors Statements.

(** The id of a skill has a value exactly when the skill can be hashed. *)
Lemma id_returns (s : Skill.t) : hashable s ↔ ∃ i, Skill.id s = Returns i.
Proof.
  unfold hashable, Skill.id. destruct (encodable _); split; try done.
  - by eexists.
  - by intros [? ?].
Qed.

Lemma id_raises (s : Skill.t) (e : exn) :
  Skill.id s = Raises e → ¬ hashable s ∧ e = UnicodeEncodeError.
Proof.
  unfold hashable, Skill.id. destruct (encodable _); [done|].
  intros [= <-]. done.
Qed.

Lemma id_or_empty_returns (s : Skill.t) : hashable s → Skill.id s = Returns (id_or_empty s).
Proof. intros [i Hi]%id_returns. unfold id_or_empty. by rewrite Hi. Qed.

Lemma id_or_empty_eq (a b : Skill.t) :
  hashable a → hashable b → id_or_empty a = id_or_empty b ↔ Skill.id a = Skill.id b.
Proof.
  intros Ha%id_or_empty_returns Hb%id_or_empty_returns. rewrite Ha, Hb.
  split; [by intros ->|by intros [= ->]].
Qed.

(** The loop keeps the first skill of each id when every id has a value. *)
Lemma dedup_loop_returns (all : list Skill.t) : ∀ seen unique,
  Forall hashable all →
  dedup_loop seen unique all = Returns (unique ++ first_by_key id_or_empty seen all).
Proof.
  induction all as [|s rest IH]; intros seen unique Hall; simpl.
  - by rewrite app_nil_r.
  - apply Forall_cons in Hall as [Hs Hrest].
    rewrite (id_or_empty_returns s Hs). cbn [Py.bind].
    case_decide; [by apply IH|]. rewrite IH by done. by rewrite <-app_assoc.
Qed.

(** It raises at the first skill that has no id. *)
Lemma dedup_loop_raises (all : list Skill.t) : ∀ seen unique,
  ¬ Forall hashable all → dedup_loop seen unique all = Raises UnicodeEncodeError.
Proof.
  induction all as [|s rest IH]; intros seen unique Hall; simpl.
  - destruct Hall. constructor.
  - destruct (Skill.id s) as [i|e] eqn:Hid; cbn [Py.bind].
    + assert (Hrest : ¬ Forall hashable rest).
      { intros Hrest. apply Hall. constructor; [|done]. apply id_returns. by exists i. }
      case_decide; by apply IH.
    + by apply id_raises in Hid as [_ ->].
Qed.

Lemma hashable_dec (all : list Skill.t) : Decision (Forall hashable all).
Proof. apply Forall_dec. intros s. unfold hashable. apply _. Qed.

Lemma all_skills_returns (results : list (list Skill.t)) :
  all_skills (Returns <$> results) = concat results.
Proof.
  unfold all_skills.
  induction results as [|batch results IH]; [done|].
  rewrite !fmap_cons. cbn [concat _run]. by rewrite IH.
Qed.

(** What [collect_all] does, on the results of collectors that returned. *)
Lemma collect_all_closed_form (results : list (list Skill.t)) :
  (Forall hashable (concat results)
   ∧ collect_all (Returns <$> results)
     = Returns (first_by_key id_or_empty ∅ (concat results)))
  ∨ (¬ Forall hashable (concat results)
     ∧ collect_all (Returns <$> results) = Raises UnicodeEncodeError).
Proof.
  unfold collect_all. rewrite all_skills_returns.
  destruct (hashable_dec (concat results)) as [Hall|Hall]; [left|right].
  - split; [done|]. by rewrite dedup_loop_returns.
  - split; [done|]. by apply dedup_loop_raises.
Qed.

Lemma collect_all_returns (results : list (list Skill.t)) (unique : list Skill.t) :
  collect_all (Returns <$> results) = Returns unique →
  Forall hashable (concat results)
  ∧ unique = first_by_key id_or_empty ∅ (concat results).
Proof.
  destruct (collect_all_closed_form results) as [[Hall ->]|[_ ->]]; [|done].
  by intros [= <-].
Qed.

(** C10.  Let the collectors return the lists [results].  [collect_all]
    returns a list exactly when every skill collected can be hashed (it
    raises UnicodeEncodeError otherwise); the list it returns is an
    order-preserving subsequence of the concatenation of the results, it
    holds no two skills with the same id, every id of the concatenation is
    kept, and a kept skill is the first one of the concatenation with its
    id, so that among duplicates the skill of the earlier collector stays. *)
Theorem collect_all_keeps_first_of_each_id (results : list (list Skill.t)) :
  (Forall hashable (concat results)
   ↔ ∃ unique, collect_all (Returns <$> results) = Returns unique)
  ∧ (¬ Forall hashable (concat results)
     ↔ collect_all (Returns <$> results) = Raises UnicodeEncodeError)
  ∧ ∀ unique, collect_all (Returns <$> results) = Returns unique →
      unique `sublist_of` concat results
      ∧ NoDup (Skill.id <$> unique)
      ∧ (∀ s, s ∈ concat results → ∃ u, u ∈ unique ∧ Skill.id u = Skill.id s)
      ∧ (∀ u, u ∈ unique →
           ∃ pre post, concat results = pre ++ u :: post
                       ∧ ∀ s, s ∈ pre → Skill.id s ≠ Skill.id u).
Proof.
  split_and!.
  - destruct (collect_all_closed_form results) as [[Hall ->]|[Hall ->]].
    + split; [by eexists|done].
    + split; [done|by intros [? ?]].
  - destruct (collect_all_closed_form results) as [[Hall ->]|[Hall ->]]; by split.
  - intros unique [Hall ->]%collect_all_returns.
    rewrite Forall_forall in Hall.
    assert (Hunique : ∀ u, u ∈ first_by_key id_or_empty ∅ (concat results) →
                        u ∈ concat results).
    { intros u Hu. eapply elem_of_sublist; [exact Hu|apply first_by_key_sublist]. }
    split_and!.
    + apply first_by_key_sublist.
    + pose proof (first_by_key_NoDup id_or_empty (concat results) ∅) as Hnd.
      apply (NoDup_fmap_1 (fun r => match r with Returns i => i | Raises _ => [] end)).
      by rewrite <-list_fmap_compose.
    + intros s Hs.
      destruct (first_by_key_covers id_or_empty (concat results) ∅ s Hs)
        as (u & Hu & Hk); [apply not_elem_of_empty|].
      exists u. split; [done|]. apply id_or_empty_eq; auto.
    + intros u Hu.
      destruct (first_by_key_first id_or_empty _ _ _ Hu) as (pre & post & Hsplit & Hpre).
      exists pre, post. split; [done|]. intros s Hs Heq.
      apply (Hpre s Hs). apply id_or_empty_eq; [| |done].
      * apply Hall. rewrite Hsplit. apply elem_of_app. by left.
      * auto.
Qed.

Lemma filter_none {A} (p : A → bool) (l : list A) :
  (∀ z, z ∈ l → p z = false) → List.filter p l = [].
Proof.
  induction l as [|y l IH]; intros Hp; [done|]. simpl.
  rewrite (Hp y) by left. apply IH. intros z Hz. apply Hp. by right.
Qed.

Lemma count_once {A B} `{EqDecision B} (f : A → B) (l : list A) (x : A) :
  NoDup (f <$> l) → x ∈ l →
  length (List.filter (fun u => bool_decide (f u = f x)) l) = 1%nat.
Proof.
  induction l as [|y l IH]; intros Hnd Hx; [by apply elem_of_nil in Hx|].
  rewrite fmap_cons in Hnd. apply NoDup_cons in Hnd as [Hy Hnd]. simpl.
  destruct (decide (f y = f x)) as [Heq|Hne].
  - rewrite bool_decide_eq_true_2 by done. simpl. f_equal.
    rewrite filter_none; [done|].
    intros z Hz. apply bool_decide_eq_false_2. intros Hzx.
    apply Hy. rewrite Heq, <-Hzx. by apply list_elem_of_fmap_2.
  - rewrite bool_decide_eq_false_2 by done.
    apply elem_of_cons in Hx as [->|Hx]; [done|]. by apply IH.
Qed.

(** C8.  Two texts that are equal after trimming and lower-casing give
    skills with the same id, whatever their other fields (no id for either
    when the normalized text has no UTF-8 encoding).  When the results of
    the collectors hold a skill of each text, [collect_all] returns a list
    as soon as every skill collected can be hashed, and the list it returns
    holds exactly one skill with that id, which is, when no other content
    collected has the same hash, exactly one skill with that normalized
    content. *)
Theorem same_normalized_content_one_entry (T1 T2 : str)
    (Hnorm : Skill.normalized T1 = Skill.normalized T2) :
  (∀ a b : Skill.t, Skill.content a = T1 → Skill.content b = T2 →
     Skill.id a = Skill.id b)
  ∧ (∀ (results : list (list Skill.t)) (a b : Skill.t),
       a ∈ concat results → b ∈ concat results →
       Skill.content a = T1 → Skill.content b = T2 →
       (Forall hashable (concat results) →
          ∃ unique, collect_all (Returns <$> results) = Returns unique)
       ∧ ∀ unique, collect_all (Returns <$> results) = Returns unique →
           length (List.filter (fun u => bool_decide (Skill.id u = Skill.id a)) unique)
           = 1%nat
           ∧ ((∀ s, s ∈ concat results → Skill.id s = Skill.id a →
                  Skill.normalized (Skill.content s) = Skill.normalized T1) →
              length (List.filter
                        (fun u => bool_decide (Skill.normalized (Skill.content u)
                                               = Skill.normalized T1))
                        unique) = 1%nat)).
Proof.
  assert (Hid : ∀ a b : Skill.t, Skill.content a = T1 → Skill.content b = T2 →
                  Skill.id a = Skill.id b).
  { intros a b Ha Hb. unfold Skill.id. by rewrite Ha, Hb, Hnorm. }
  split; [exact Hid|].
  intros results a b Ha Hb Hca Hcb. split.
  { intros Hall. destruct (collect_all_closed_form results) as [[_ ->]|[Hno _]];
      [by eexists|done]. }
  intros unique [Hall ->]%collect_all_returns.
  rewrite Forall_forall in Hall.
  set (unique := first_by_key id_or_empty ∅ (concat results)).
  assert (Hsub : unique `sublist_of` concat results) by apply first_by_key_sublist.
  assert (Hnd : NoDup (Skill.id <$> unique)).
  { pose proof (first_by_key_NoDup id_or_empty (concat results) ∅) as Hnd.
    apply (NoDup_fmap_1 (fun r => match r with Returns i => i | Raises _ => [] end)).
    by rewrite <-list_fmap_compose. }
  destruct (first_by_key_covers id_or_empty (concat results) ∅ a Ha)
    as (u & Hu & Hua); [apply not_elem_of_empty|].
  fold unique in Hu.
  assert (Hua' : Skill.id u = Skill.id a).
  { apply id_or_empty_eq; [|by apply Hall|done]. apply Hall. by eapply elem_of_sublist. }
  assert (Hone : length (List.filter (fun x => bool_decide (Skill.id x = Skill.id a))
                                     unique) = 1%nat).
  { rewrite <-Hua'. by apply count_once. }
  split; [exact Hone|].
  intros Hinj. rewrite <-Hone. f_equal. apply List.filter_ext_in.
  intros x Hx%list_elem_of_In. apply bool_decide_ext. split.
  - intros Hx'. unfold Skill.id. rewrite Hx'. by rewrite Hca.
  - intros Hx'. apply Hinj; [|done]. by eapply elem_of_sublist.
Qed.

End CollectorsProperties.

Section CollectorsExamples.
Local Existing Instance Demo.platform.
Import Collectors Statements.

(** Two collectors: the first finds a skill and another one, the second
    finds the first skill again, in other letters and from another source:
    the skill of the first collector stays. *)
Lemma collect_all_keeps_first_of_each_id_witness :
  collect_all (Returns <$> [ [Demo.explain_csv; Demo.sort_csv]; [Demo.explain_github] ])
  = Returns [Demo.explain_csv; Demo.sort_csv]
  ∧ NoDup (Skill.id <$> [Demo.explain_csv; Demo.sort_csv])
  ∧ ∃ u, u ∈ [Demo.explain_csv; Demo.sort_csv]
         ∧ Skill.id u = Skill.id Demo.explain_github.
Proof.
  assert (Hrun :
    collect_all (Returns <$> [ [Demo.explain_csv; Demo.sort_csv]; [Demo.explain_github] ])
    = Returns [Demo.explain_csv; Demo.sort_csv])
    by (vm_compute; reflexivity).
  split; [exact Hrun|].
  destruct (collect_all_keeps_first_of_each_id
              [ [Demo.explain_csv; Demo.sort_csv]; [Demo.explain_github] ])
    as (_ & _ & Hlist).
  destruct (Hlist _ Hrun) as (_ & Hnd & Hcovers & _).
  split; [exact Hnd|]. apply Hcovers. cbn [concat app]. right. right. left.
Defined.

(** A skill whose content is a lone surrogate has no id, and [collect_all]
    raises on it, whatever else was collected. *)
Example collect_all_lone_surrogate :
  Skill.id Demo.lone_surrogate = Raises UnicodeEncodeError
  ∧ collect_all [ Returns [Demo.recursion]; Returns [Demo.lone_surrogate] ]
    = Raises UnicodeEncodeError.
Proof. split; vm_compute; reflexivity. Qed.

Lemma same_normalized_content_one_entry_witness :
  Skill.normalized (Skill.content Demo.explain_csv)
  = Skill.normalized (Skill.content Demo.explain_github)
  ∧ Skill.id Demo.explain_csv = Skill.id Demo.explain_github
  ∧ collect_all (Returns <$> [ [Demo.explain_csv]; [Demo.explain_github] ])
    = Returns [Demo.explain_csv]
  ∧ length (List.filter
              (fun u => bool_decide (Skill.id u = Skill.id Demo.explain_csv))
              [Demo.explain_csv])
    = 1%nat.
Proof.
  assert (Hnorm : Skill.normalized (Skill.content Demo.explain_csv)
                  = Skill.normalized (Skill.content Demo.explain_github))
    by (vm_compute; reflexivity).
  assert (Hrun :
    collect_all (Returns <$> [ [Demo.explain_csv]; [Demo.explain_github] ])
    = Returns [Demo.explain_csv])
    by (vm_compute; reflexivity).
  destruct (same_normalized_content_one_entry _ _ Hnorm) as [Hid Hone].
  split; [exact Hnorm|]. split; [by apply Hid|]. split; [exact Hrun|].
  refine (proj1 (proj2 (Hone [ [Demo.explain_csv]; [Demo.explain_github] ]
                          Demo.explain_csv Demo.explain_github _ _ _ _)
                   _ Hrun));
    [cbn [concat app]..]; [left|right; left|reflexivity|reflexivity].
Defined.

End CollectorsExamples.
(* ===================================================================== *)
(** * Properties of the heuristic skill filter *)
(* ===================================================================== *)

Section HeuristicProperties.
Context `{Platform}.

Lemma lstrip_length (s : str) : (length (lstrip s) ≤ length s)%nat.
Proof. induction s as [|c s IH]; simpl; [lia|]. destruct (isspace c); simpl; lia. Qed.

Lemma strip_length (s : str) : (length (strip s) ≤ length s)%nat.
Proof.
  unfold strip, rstrip. rewrite length_reverse.
  etrans; [apply lstrip_length|]. rewrite length_reverse. apply lstrip_length.
Qed.

(** C9 (as amended).  With [min_length=50] and the other settings by
    default, the filter rejects every skill whose content is 10 characters
    long, and accepts every skill whose content is 200 characters long with
    an ASCII ratio of 90%, has no whitespace at either end and holds at least
    10 whitespace-separated words. *)
Theorem heuristic_filter_scenario (skill : Skill.t) :
  (length (Skill.content skill) = 10%nat →
     HeuristicFilter._accept Demo.skill_filter_config skill = false)
  ∧ (length (Skill.content skill) = 200%nat →
     (HeuristicFilter.ascii_fraction (Skill.content skill) == 9 # 10)%Q →
     strip (Skill.content skill) = Skill.content skill →
     10 ≤ len (split_ws (Skill.content skill)) →
     HeuristicFilter._accept Demo.skill_filter_config skill = true).
Proof.
  split.
  - intros Hlen. unfold HeuristicFilter._accept.
    pose proof (strip_length (Skill.content skill)) as Hle.
    replace (len (strip (Skill.content skill)) <? _) with true; [done|].
    symmetry. apply Z.ltb_lt. unfold len. simpl. lia.
  - intros Hlen Hratio Hstrip Hwords. unfold HeuristicFilter._accept.
    rewrite Hstrip.
    assert (Hl : len (Skill.content skill) = 200) by (unfold len; lia).
    rewrite Hl. simpl.
    replace (len (split_ws (Skill.content skill)) <? 10) with false
      by (symmetry; apply Z.ltb_ge; lia).
    destruct (Skill.content skill) as [|c rest] eqn:Hc; [done|].
    unfold HeuristicFilter.below. rewrite Hratio. done.
Qed.

End HeuristicProperties.

Section HeuristicExamples.
Local Existing Instance Demo.platform.

Lemma heuristic_filter_scenario_witness :
  HeuristicFilter._accept Demo.skill_filter_config (Demo.skill "s" (lit "too short!") "csv")
  = false
  ∧ HeuristicFilter._accept Demo.skill_filter_config
      (Demo.skill "s" Demo.twenty_words "csv") = true.
Proof.
  split.
  - apply (proj1 (heuristic_filter_scenario _)). reflexivity.
  - apply (proj2 (heuristic_filter_scenario _)); vm_compute; congruence.
Defined.

(** C9, as stated, fails: a content of 200 characters, 180 of them ASCII,
    written as a single word, is rejected by the word count. *)
Lemma heuristic_filter_rejects_one_long_word :
  length Demo.one_long_word = 200%nat
  ∧ HeuristicFilter.ascii_count Demo.one_long_word = 180
  ∧ HeuristicFilter._accept Demo.skill_filter_config
      (Demo.skill "s" Demo.one_long_word "csv") = false.
Proof. vm_compute. done. Qed.

End HeuristicExamples.

(* ===================================================================== *)
(** * Properties of the JSON extraction *)
(* ===================================================================== *)

Section TextLemmas.

Lemma isspace_visible (c : N) : (33 ≤ c < 133)%N → isspace c = false.
Proof.
  intros Hc. unfold isspace.
  rewrite (proj2 (N.leb_gt c 13)), (proj2 (N.leb_gt c 32)),
    (proj2 (N.leb_gt 8192 c)) by lia.
  rewrite !(proj2 (N.eqb_neq c _)) by lia.
  by rewrite !andb_false_r.
Qed.

Lemma json_whitespace_isspace (c : N) : Spec.json_whitespace c = true → isspace c = true.
Proof.
  unfold Spec.json_whitespace. intros Hc.
  repeat (apply orb_prop in Hc as [Hc|Hc]); apply N.eqb_eq in Hc; by subst.
Qed.

Lemma value_start_visible (c : N) : Spec.value_start c = true → (33 ≤ c < 133)%N ∧ c ≠ 96%N.
Proof.
  unfold Spec.value_start. intros Hc.
  repeat (apply orb_prop in Hc as [Hc|Hc]);
    try (apply N.eqb_eq in Hc; subst; split; [lia|done]).
  apply andb_prop in Hc as [H1%N.leb_le H2%N.leb_le]. lia.
Qed.

Lemma lstrip_skip (ws : str) (c : N) (rest : str) :
  Forall (fun x => isspace x = true) ws → isspace c = false →
  lstrip (ws ++ c :: rest) = c :: rest.
Proof.
  intros Hws Hc. induction Hws as [|x ws Hx _ IH]; simpl.
  - by rewrite Hc.
  - by rewrite Hx.
Qed.

Lemma lstrip_snoc (l : str) (c : N) :
  isspace c = false → ∃ l', lstrip (l ++ [c]) = l' ++ [c].
Proof.
  intros Hc. induction l as [|x l [l' IH]]; simpl.
  - rewrite Hc. by exists [].
  - destruct (isspace x); [by exists l'|by exists (x :: l)].
Qed.

Lemma rstrip_head (c : N) (rest : str) :
  isspace c = false → ∃ rest', rstrip (c :: rest) = c :: rest'.
Proof.
  intros Hc. unfold rstrip. rewrite reverse_cons.
  destruct (lstrip_snoc (reverse rest) c Hc) as [l' ->].
  exists (reverse l'). by rewrite reverse_snoc.
Qed.

Lemma strip_between (a b : N) (s : str) :
  isspace a = false → isspace b = false → strip (a :: s ++ [b]) = a :: s ++ [b].
Proof.
  intros Ha Hb. unfold strip, rstrip. simpl. rewrite Ha.
  rewrite reverse_cons, reverse_snoc. simpl. rewrite Hb.
  change (b :: reverse s ++ [a]) with ((b :: reverse s) ++ [a]).
  rewrite reverse_snoc, reverse_cons, reverse_involutive. done.
Qed.

Lemma split_on_nonempty (sep : N) (s : str) : split_on sep s ≠ [].
Proof.
  destruct s as [|c s]; simpl; [done|].
  destruct (c =? sep)%N; [done|]. by destruct (split_on sep s).
Qed.

Lemma split_on_app (sep : N) (a b : str) :
  split_on sep (a ++ sep :: b) = split_on sep a ++ split_on sep b.
Proof.
  induction a as [|c a IH]; simpl.
  - by rewrite N.eqb_refl.
  - destruct (c =? sep)%N; [by rewrite IH|].
    rewrite IH. pose proof (split_on_nonempty sep a).
    by destruct (split_on sep a).
Qed.

Lemma join_split_on (sep : N) (s : str) : join [sep] (split_on sep s) = s.
Proof.
  induction s as [|c s IH]; [done|]. cbn [split_on].
  pose proof (split_on_nonempty sep s) as Hne.
  destruct (split_on sep s) as [|l ls]; [done|].
  destruct (N.eqb_spec c sep) as [->|Hc].
  - change (join [sep] ([] :: l :: ls)) with (sep :: join [sep] (l :: ls)).
    by rewrite IH.
  - rewrite <-IH. by destruct ls.
Qed.

End TextLemmas.

Section ExtractJsonProperties.
Context `{Platform}.
Import BaseLLMClient.

Lemma fenced_shape (t : str) :
  Spec.fenced t = 96%N :: (lit "``json" ++ newline :: t ++ newline :: lit "``") ++ [96%N].
Proof. unfold Spec.fenced. simpl. by rewrite <-!app_assoc. Qed.

Lemma fenced_lines (t : str) :
  split_on newline (Spec.fenced t) = lit "```json" :: split_on newline t ++ [fence].
Proof.
  unfold Spec.fenced.
  change (lit "```json" ++ [newline] ++ t ++ [newline] ++ lit "```")
    with (lit "```json" ++ newline :: (t ++ newline :: lit "```")).
  by rewrite !split_on_app.
Qed.

(** A text that decodes does not start, once trimmed, with a fence. *)
Lemma decoded_text_has_no_fence (t : str) (v : json) :
  Spec.decodes_values_only json_loads → json_loads t = Returns v →
  startswith fence (strip t) = false.
Proof.
  intros Hgrammar Ht.
  destruct (Hgrammar t v Ht) as (ws & c & rest & -> & Hws & Hc).
  apply value_start_visible in Hc as [Hvis Hc].
  unfold strip. rewrite lstrip_skip.
  - destruct (rstrip_head c rest (isspace_visible c Hvis)) as [rest' ->].
    change fence with [96; 96; 96]%N. cbn [startswith].
    destruct (N.eqb_spec 96 c); [congruence|done].
  - eapply Forall_impl; [exact Hws|]. apply json_whitespace_isspace.
  - by apply isspace_visible.
Qed.

Lemma extract_json_fenced (t : str) :
  _extract_json (Spec.fenced t) = json_loads (strip t).
Proof.
  unfold _extract_json.
  rewrite (fenced_shape t), strip_between by reflexivity.
  rewrite <-(fenced_shape t).
  replace (startswith fence (Spec.fenced t)) with true by reflexivity.
  rewrite fenced_lines. cbn [skipn]. rewrite !drop_0.
  rewrite last_snoc. rewrite decide_True by reflexivity.
  by rewrite removelast_last, join_split_on.
Qed.

(** C5.  For a text [t] that decodes as JSON, extracting from [t] inside a
    fenced block gives the same outcome as extracting from [t] itself: both
    decode [t] trimmed, the one wrapper being removed first. *)
Theorem extract_json_fenced_same (t : str) (v : json)
    (Hgrammar : Spec.decodes_values_only json_loads)
    (Hdecodes : json_loads t = Returns v) :
  _extract_json (Spec.fenced t) = _extract_json t
  ∧ _extract_json t = json_loads (strip t).
Proof.
  assert (Hplain : _extract_json t = json_loads (strip t)).
  { unfold _extract_json. by rewrite (decoded_text_has_no_fence t v). }
  split; [|exact Hplain]. by rewrite extract_json_fenced, Hplain.
Qed.

End ExtractJsonProperties.

Section ExtractJsonExamples.
Local Existing Instance Demo.platform.
Import BaseLLMClient.

Lemma skip_whitespace_split (s : str) :
  ∃ ws, s = ws ++ Demo.skip_whitespace s
        ∧ Forall (fun x => Spec.json_whitespace x = true) ws.
Proof.
  induction s as [|c s (ws & Hs & Hws)]; [by exists []|]. simpl.
  destruct (Spec.json_whitespace c) eqn:Hc; [|by exists []].
  exists (c :: ws). split; [by rewrite <-app_comm_cons, <-Hs|by constructor].
Qed.

Lemma demo_body_head (s : str) (c : N) (rest : str) :
  reverse (Demo.skip_whitespace (reverse (Demo.skip_whitespace s))) = c :: rest →
  ∃ ws rest', s = ws ++ c :: rest'
              ∧ Forall (fun x => Spec.json_whitespace x = true) ws.
Proof.
  intros Hbody.
  destruct (skip_whitespace_split s) as (ws & Hs & Hws).
  destruct (skip_whitespace_split (reverse (Demo.skip_whitespace s))) as (ws' & Hs' & _).
  apply (f_equal reverse) in Hs'.
  rewrite reverse_involutive, reverse_app, Hbody in Hs'.
  exists ws, (rest ++ reverse ws'). split; [|done].
  rewrite Hs at 1. by rewrite Hs'.
Qed.

Lemma demo_loads_decodes_values_only : Spec.decodes_values_only Demo.loads.
Proof.
  intros s v. unfold Demo.loads.
  repeat case_decide; try done; intros _;
    match goal with
    | Hb : reverse _ = _ |- _ =>
        destruct (demo_body_head s _ _ Hb) as (ws & rest' & -> & Hws)
    end; eauto 10.
Qed.

Lemma extract_json_fenced_same_witness :
  json_loads (lit " {} ") = Returns (JDict [])
  ∧ _extract_json (Spec.fenced (lit " {} ")) = _extract_json (lit " {} ").
Proof.
  split; [reflexivity|].
  apply (extract_json_fenced_same (lit " {} ") (JDict [])).
  - exact demo_loads_decodes_values_only.
  - reflexivity.
Defined.

End ExtractJsonExamples.

(* ===================================================================== *)
(** * Properties of the binary64 rounding *)
(* ===================================================================== *)

Section RoundingLemmas.
Local Open Scope Q_scope.

Lemma round_half_even_cases (q : Q) :
  (round_half_even q = Qfloor q ∧ q - inject_Z (Qfloor q) <= 1 # 2)
  ∨ (round_half_even q = (Qfloor q + 1)%Z ∧ 1 # 2 <= q - inject_Z (Qfloor q)).
Proof.
  unfold round_half_even.
  destruct (Qcompare_spec (q - inject_Z (Qfloor q)) (1 # 2)) as [Heq|Hlt|Hgt].
  - destruct (Z.even (Qfloor q)); [left|right]; split; try done; rewrite Heq; lra.
  - left. split; [done|lra].
  - right. split; [done|lra].
Qed.

Lemma round_half_even_near (q : Q) :
  inject_Z (round_half_even q) - (1 # 2) <= q <= inject_Z (round_half_even q) + (1 # 2).
Proof.
  pose proof (Qfloor_le q) as Hlo. pose proof (Qlt_floor q) as Hhi.
  rewrite inject_Z_plus in Hhi.
  destruct (round_half_even_cases q) as [[-> H]|[-> H]];
    rewrite ?inject_Z_plus; change (inject_Z 1) with 1 in *; lra.
Qed.

Lemma round_half_even_between (n m : Z) (q : Q) :
  inject_Z n <= q <= inject_Z m → (n ≤ round_half_even q ≤ m)%Z.
Proof.
  intros [Hn Hm].
  pose proof (Qfloor_le q) as Hlo.
  assert (Hfn : (n ≤ Qfloor q)%Z).
  { rewrite <-(Qfloor_Z n). by apply Qfloor_resp_le. }
  assert (Hfm : (Qfloor q ≤ m)%Z).
  { rewrite Zle_Qle. lra. }
  destruct (round_half_even_cases q) as [[-> H]|[-> H]]; [lia|].
  split; [lia|].
  assert (inject_Z (Qfloor q) < inject_Z m) as Hlt by lra.
  rewrite <-Zlt_Qlt in Hlt. lia.
Qed.

(** A number less than one half away from an integer rounds to it. *)
Lemma round_half_even_unique (n : Z) (q : Q) :
  inject_Z n - (1 # 2) < q → q < inject_Z n + (1 # 2) → round_half_even q = n.
Proof.
  intros Hlo Hhi. pose proof (round_half_even_near q) as [Hl Hh].
  set (r := round_half_even q) in *.
  assert (inject_Z r < inject_Z n + 1) as H1 by lra.
  assert (inject_Z n < inject_Z r + 1) as H2 by lra.
  change 1 with (inject_Z 1) in H1, H2.
  rewrite <-inject_Z_plus, <-Zlt_Qlt in H1, H2. lia.
Qed.

Lemma round_half_even_comp (x y : Q) : x == y → round_half_even x = round_half_even y.
Proof.
  intros Hxy. unfold round_half_even. rewrite (Qfloor_comp _ _ Hxy).
  assert (Hc : (x - inject_Z (Qfloor y) ?= 1 # 2) = (y - inject_Z (Qfloor y) ?= 1 # 2)).
  { apply Qcompare_comp; [|done]. by rewrite Hxy. }
  by rewrite Hc.
Qed.

Lemma round2_near (q : Q) : q - (1 # 200) <= round2 q <= q + (1 # 200).
Proof.
  unfold round2. pose proof (round_half_even_near (q * 100)) as H.
  set (k := inject_Z (round_half_even (q * 100))) in *.
  assert (k / 100 == k * (1 # 100)) as -> by (field). lra.
Qed.

Lemma round2_between (q : Q) : 1 <= q <= 5 → 1 <= round2 q <= 5.
Proof.
  intros Hq. unfold round2.
  destruct (round_half_even_between 100 500 (q * 100)) as [Hlo Hhi].
  { change (inject_Z 100) with 100. change (inject_Z 500) with 500. lra. }
  rewrite Zle_Qle in Hlo, Hhi.
  change (inject_Z 100) with 100 in Hlo. change (inject_Z 500) with 500 in Hhi.
  set (k := inject_Z (round_half_even (q * 100))) in *.
  assert (k / 100 == k * (1 # 100)) as -> by (field). lra.
Qed.

End RoundingLemmas.

Section PowersOfTwo.
Local Open Scope Q_scope.

Lemma pow2_pos (z : Z) : 0 < 2 ^ z.
Proof. by apply Qpower_0_lt. Qed.

Lemma pow2_plus (a b : Z) : 2 ^ (a + b) == 2 ^ a * 2 ^ b.
Proof. by apply Qpower_plus. Qed.

Lemma pow2_le (a b : Z) : (a ≤ b)%Z → 2 ^ a <= 2 ^ b.
Proof. intros Hab. by apply Qpower_le_compat_l. Qed.

Lemma pow2_lt (a b : Z) : (a < b)%Z → 2 ^ a < 2 ^ b.
Proof. intros Hab. by apply Qpower_lt_compat_l. Qed.

Lemma pow2_le_inv (a b : Z) : 2 ^ a <= 2 ^ b → (a ≤ b)%Z.
Proof. intros Hab. by eapply Qpower_le_compat_l_inv. Qed.

Lemma pow2_lt_inv (a b : Z) : 2 ^ a < 2 ^ b → (a < b)%Z.
Proof. intros Hab. by eapply Qpower_lt_compat_l_inv. Qed.

Lemma pow2_inject (n : Z) : (0 ≤ n)%Z → inject_Z (2 ^ n) == 2 ^ n.
Proof. intros Hn. by rewrite Zpower_Qpower. Qed.

Lemma pow2_succ (a : Z) : 2 ^ (a + 1) == 2 * 2 ^ a.
Proof. rewrite pow2_plus. change (2 ^ 1) with 2. ring. Qed.

(** An integer is a multiple of a power of two of exponent at most 0. *)
Lemma multiple_of_small_pow2 (k e : Z) :
  (e ≤ 0)%Z → inject_Z k == inject_Z (k * 2 ^ (- e)) * 2 ^ e.
Proof.
  intros He. rewrite inject_Z_mult, pow2_inject by lia.
  rewrite <-Qmult_assoc, <-pow2_plus.
  replace (- e + e)%Z with 0%Z by lia. change (2 ^ 0) with 1. ring.
Qed.

End PowersOfTwo.

Section Binary64Lemmas.
Local Open Scope Q_scope.
Import Binary64.

(** The binade of a positive number holds it. *)
Lemma binade_spec (q : Q) : 0 < q → 2 ^ binade q <= q ∧ q < 2 ^ (binade q + 1).
Proof.
  destruct q as [n d]. intros Hq.
  assert (Hn : (0 < n)%Z).
  { unfold Qlt in Hq. simpl in Hq. lia. }
  unfold binade. cbn [Qnum Qden].
  set (a := Z.log2 n). set (b := Z.log2 (Z.pos d)). set (e := (a - b)%Z).
  destruct (Z.log2_spec n Hn) as [Hna Hna'].
  destruct (Z.log2_spec (Z.pos d)) as [Hdb Hdb']; [done|].
  fold a in Hna, Hna'. fold b in Hdb, Hdb'.
  assert (Ha : (0 ≤ a)%Z) by apply Z.log2_nonneg.
  assert (Hb : (0 ≤ b)%Z) by apply Z.log2_nonneg.
  rewrite Zle_Qle, pow2_inject in Hna, Hdb by lia.
  rewrite Zlt_Qlt, pow2_inject in Hna', Hdb' by lia.
  replace (Z.succ a) with (a + 1)%Z in Hna' by lia.
  replace (Z.succ b) with (b + 1)%Z in Hdb' by lia.
  assert (Hd : 0 < inject_Z (Z.pos d)) by (by rewrite <-(Zlt_Qlt 0)).
  assert (Hnd : n # d == inject_Z n / inject_Z (Z.pos d)) by apply Qmake_Qdiv.
  pose proof (pow2_pos e) as He. pose proof (pow2_pos (e - 1)) as He'.
  pose proof (pow2_pos b) as Hpb.
  assert (Hab : 2 ^ a == 2 ^ e * 2 ^ b).
  { rewrite <-pow2_plus. by replace (e + b)%Z with a by (unfold e; lia). }
  assert (Hab1 : 2 ^ (a + 1) == 2 ^ (e + 1) * 2 ^ b).
  { rewrite <-pow2_plus. by replace (e + 1 + b)%Z with (a + 1)%Z by (unfold e; lia). }
  assert (Hab' : 2 ^ a == 2 ^ (e - 1) * 2 ^ (b + 1)).
  { rewrite <-pow2_plus. by replace (e - 1 + (b + 1))%Z with a by (unfold e; lia). }
  assert (Hup : n # d < 2 ^ (e + 1)).
  { rewrite Hnd. apply Qlt_shift_div_r; [done|].
    pose proof (pow2_pos (e + 1)). nra. }
  assert (Hlow : 2 ^ (e - 1) <= n # d).
  { rewrite Hnd. apply Qle_shift_div_l; [done|]. nra. }
  destruct (Qle_bool (2 ^ e) (n # d)) eqn:Hle.
  - apply Qle_bool_iff in Hle. done.
  - split; [done|]. replace (e - 1 + 1)%Z with e by lia.
    apply Qnot_le_lt. intros Hle'. apply Qle_bool_iff in Hle'. congruence.
Qed.

Lemma binade_lt (q : Q) (k : Z) : 0 < q → q < 2 ^ k → (binade q < k)%Z.
Proof.
  intros Hq Hk. destruct (binade_spec q Hq) as [Hlo _].
  apply pow2_lt_inv. lra.
Qed.

Lemma binade_ge (q : Q) (k : Z) : 2 ^ k <= q → (k ≤ binade q)%Z.
Proof.
  intros Hk. pose proof (pow2_pos k).
  destruct (binade_spec q) as [_ Hhi]; [lra|].
  assert (Hlt : (k < binade q + 1)%Z) by (apply pow2_lt_inv; lra). lia.
Qed.

Lemma ulp_pos (q : Q) : 0 < ulp q.
Proof. apply pow2_pos. Qed.

(** The rounding stays on the side of a multiple of the unit in the last
    place. *)
Lemma nearest_le_grid (q : Q) (k : Z) :
  q <= inject_Z k * ulp q → nearest q <= inject_Z k * ulp q.
Proof.
  intros Hk. pose proof (ulp_pos q) as Hu. unfold nearest.
  destruct (round_half_even_between (Qfloor (q / ulp q)) k (q / ulp q)) as [_ Hr].
  { split; [apply Qfloor_le|]. apply Qle_shift_div_r; [done|lra]. }
  rewrite Zle_Qle in Hr. nra.
Qed.

Lemma nearest_ge_grid (q : Q) (k : Z) :
  inject_Z k * ulp q <= q → inject_Z k * ulp q <= nearest q.
Proof.
  intros Hk. pose proof (ulp_pos q) as Hu. unfold nearest.
  destruct (round_half_even_between k (Qceiling (q / ulp q)) (q / ulp q)) as [Hr _].
  { split; [|apply Qle_ceiling]. apply Qle_shift_div_l; [done|lra]. }
  rewrite Zle_Qle in Hr. nra.
Qed.

(** The rounding moves a number by half a unit in the last place at most. *)
Lemma nearest_near (q : Q) :
  q - ulp q * (1 # 2) <= nearest q ∧ nearest q <= q + ulp q * (1 # 2).
Proof.
  pose proof (ulp_pos q) as Hu. unfold nearest.
  pose proof (round_half_even_near (q / ulp q)) as [Hlo Hhi].
  set (r := inject_Z (round_half_even (q / ulp q))) in *.
  assert (Hq : q == q / ulp q * ulp q) by (field; lra).
  set (x := q / ulp q) in *. split; nra.
Qed.

(** Rounding keeps a number between two integers of at most 53 bits. *)
Lemma nearest_between_Z (q : Q) (lo hi : Z) :
  0 < q → (hi ≤ 2 ^ 53)%Z → inject_Z lo <= q → q <= inject_Z hi →
  inject_Z lo <= nearest q ∧ nearest q <= inject_Z hi.
Proof.
  intros Hq Hhi Hlo Hqhi.
  destruct (binade_spec q Hq) as [Hb _].
  destruct (decide (Z.max (binade q - 52) (-1074) ≤ 0)%Z) as [He|He].
  - split.
    + rewrite (multiple_of_small_pow2 lo _ He) in Hlo |- *.
      by apply nearest_ge_grid.
    + rewrite (multiple_of_small_pow2 hi _ He) in Hqhi |- *.
      by apply nearest_le_grid.
  - assert (He' : (53 ≤ binade q)%Z) by lia.
    rewrite Zle_Qle, pow2_inject in Hhi by lia.
    pose proof (pow2_le 53 (binade q) He') as Hp.
    assert (Hbin : binade q = 53%Z).
    { apply Z.le_antisymm; [|done]. apply pow2_le_inv. lra. }
    assert (Hulp : ulp q = 2 ^ 1).
    { unfold ulp. rewrite Hbin. reflexivity. }
    rewrite Hbin in Hb.
    assert (Hgrid : 2 ^ 53 == inject_Z (2 ^ 52) * ulp q).
    { rewrite Hulp, pow2_inject by lia. by rewrite <-pow2_plus. }
    assert (Hq53 : q == 2 ^ 53) by lra.
    assert (Hn : nearest q == 2 ^ 53).
    { apply Qle_antisym.
      - rewrite Hgrid. apply nearest_le_grid. rewrite <-Hgrid. lra.
      - rewrite Hgrid. apply nearest_ge_grid. rewrite <-Hgrid. lra. }
    rewrite Hn. lra.
Qed.

Lemma fl_comp (x y : Q) : x == y → fl x = fl y.
Proof. intros Hxy. unfold fl. by rewrite (Qred_complete _ _ Hxy). Qed.

Lemma fl_positive (q : Q) : 0 < q → fl q = nearest (Qred q).
Proof.
  intros Hq. unfold fl.
  assert (Hr : 0 < Qred q) by (by rewrite Qred_correct).
  apply Qgt_alt in Hr. by rewrite Hr.
Qed.

(** [fl] keeps a number between two integers from 0 to 2^53. *)
Lemma fl_between_Z (q : Q) (lo hi : Z) :
  (0 ≤ lo)%Z → (hi ≤ 2 ^ 53)%Z → inject_Z lo <= q → q <= inject_Z hi →
  inject_Z lo <= fl q ∧ fl q <= inject_Z hi.
Proof.
  intros Hlo0 Hhi Hlo Hqhi.
  rewrite Zle_Qle in Hlo0. change (inject_Z 0) with 0 in Hlo0.
  destruct (Qlt_le_dec 0 q) as [Hq|Hq].
  - rewrite fl_positive by done.
    apply nearest_between_Z; rewrite ?Qred_correct; done.
  - assert (Hq0 : q == 0) by lra.
    rewrite (fl_comp q 0 Hq0). change (fl 0) with 0. lra.
Qed.


(** Below [2^k], rounding moves a positive number by [2^(k-54)] at most. *)
Lemma fl_near (q : Q) (k : Z) :
  0 < q → q < 2 ^ k → (-1021 ≤ k)%Z →
  q - 2 ^ (k - 54) <= fl q ∧ fl q <= q + 2 ^ (k - 54).
Proof.
  intros Hq Hk Hk'. rewrite fl_positive by done.
  set (q' := Qred q).
  assert (Hq' : q' == q) by apply Qred_correct.
  assert (Hpos : 0 < q') by (by rewrite Hq').
  assert (Hlt : q' < 2 ^ k) by (by rewrite Hq').
  pose proof (binade_lt q' k Hpos Hlt) as Hb.
  assert (Hu : ulp q' <= 2 ^ (k - 53)).
  { unfold ulp. apply pow2_le. lia. }
  assert (Hhalf : 2 ^ (k - 53) == 2 * 2 ^ (k - 54)).
  { rewrite <-pow2_succ. by replace (k - 54 + 1)%Z with (k - 53)%Z by lia. }
  pose proof (ulp_pos q') as Hup.
  destruct (nearest_near q') as [Hlo Hhi]. rewrite <-Hq'. split; lra.
Qed.

End Binary64Lemmas.

Section Binary64Examples.
Local Open Scope Q_scope.
Import Binary64.

(** The floats [0.1], [0.1 + 0.2] and [1/3]; ties go to the even
    neighbour ([2^53 + 1] and [2^53 + 3]); half the smallest subnormal
    number rounds to zero; [7.875 / 5] is just below 1.575. *)
Example fl_known_values :
  fl (1 # 10) == 3602879701896397 # 36028797018963968
  ∧ add (fl (1 # 10)) (fl (2 # 10)) == 1351079888211149 # 4503599627370496
  ∧ div 1 3 == 6004799503160661 # 18014398509481984
  ∧ of_int (2 ^ 53 + 1) == inject_Z (2 ^ 53)
  ∧ of_int (2 ^ 53 + 3) == inject_Z (2 ^ 53 + 4)
  ∧ fl (2 ^ (-1075)) == 0
  ∧ div (63 # 8) 5 == 7093169413108531 # 4503599627370496
  ∧ div (63 # 8) 5 < 1575 # 1000.
Proof. split_and!; vm_compute; reflexivity. Qed.

End Binary64Examples.
(* ===================================================================== *)
(** * Properties of the quality verdict *)
(* ===================================================================== *)

Section VerdictLemmas.
Local Open Scope Q_scope.
Import Binary64.

Lemma in_range_spec (x : Q) : QualityVerdict.in_range x = true ↔ 1 <= x <= 5.
Proof.
  unfold QualityVerdict.in_range. rewrite andb_true_iff, !Qle_bool_iff. done.
Qed.

Lemma new_returns (c a h al v : Q) (r : str) (verdict : QualityVerdict.t) :
  QualityVerdict.new c a h al v r = Returns verdict →
  verdict = QualityVerdict.mk c a h al v r
  ∧ 1 <= c <= 5 ∧ 1 <= a <= 5 ∧ 1 <= h <= 5 ∧ 1 <= al <= 5 ∧ 1 <= v <= 5.
Proof.
  unfold QualityVerdict.new.
  destruct (_ && _) eqn:Hr; [|done]. intros [= <-].
  rewrite !andb_true_iff, !in_range_spec in Hr. tauto.
Qed.

(** A sum of two floats within integer bounds, and how far it is from the
    exact sum. *)
Lemma add_between (x y : Q) (lo hi k : Z) :
  (1 ≤ lo)%Z → (hi < 2 ^ k)%Z → (0 ≤ k ≤ 53)%Z →
  inject_Z lo <= x + y → x + y <= inject_Z hi →
  (inject_Z lo <= add x y ∧ add x y <= inject_Z hi)
  ∧ (x + y - 2 ^ (k - 54) <= add x y ∧ add x y <= x + y + 2 ^ (k - 54)).
Proof.
  intros Hlo Hhi Hk Hl Hh. unfold add.
  assert (Hpow : (2 ^ k ≤ 2 ^ 53)%Z) by (apply Z.pow_le_mono_r; lia).
  assert (H1 : 1 <= inject_Z lo) by (by rewrite <-(Zle_Qle 1)).
  assert (H2 : inject_Z hi < 2 ^ k).
  { rewrite <-pow2_inject by lia. by rewrite <-Zlt_Qlt. }
  split.
  - apply fl_between_Z; [lia|lia|done|done].
  - apply fl_near; [lra|lra|lia].
Qed.

Lemma pow2_m50 : 2 ^ (4 - 54) == 1 # 2 ^ 50.
Proof. reflexivity. Qed.

Lemma pow2_m49 : 2 ^ (5 - 54) == 1 # 2 ^ 49.
Proof. reflexivity. Qed.

Lemma pow2_m51 : 2 ^ (3 - 54) == 1 # 2 ^ 51.
Proof. reflexivity. Qed.

(** The mean as the program computes it, before it is rounded to two
    decimals: within [1,5], and very close to the exact mean. *)
Lemma float_mean_near (c a h al v : Q) :
  1 <= c <= 5 → 1 <= a <= 5 → 1 <= h <= 5 → 1 <= al <= 5 → 1 <= v <= 5 →
  let m := div (add (add (add (add c a) h) al) v) 5 in
  (1 <= m ∧ m <= 5)
  ∧ ((c + a + h + al + v) / 5 - (2 # 10 ^ 15) <= m
     ∧ m <= (c + a + h + al + v) / 5 + (2 # 10 ^ 15)).
Proof.
  intros Hc Ha Hh Hal Hv m.
  destruct (add_between c a 2 10 4) as [[L1 U1] [N1 F1]];
    [lia|lia|lia|change (inject_Z 2) with 2; lra|change (inject_Z 10) with 10; lra|].
  change (inject_Z 2) with 2 in L1. change (inject_Z 10) with 10 in U1.
  set (s1 := add c a) in *.
  destruct (add_between s1 h 3 15 4) as [[L2 U2] [N2 F2]];
    [lia|lia|lia|change (inject_Z 3) with 3; lra|change (inject_Z 15) with 15; lra|].
  change (inject_Z 3) with 3 in L2. change (inject_Z 15) with 15 in U2.
  set (s2 := add s1 h) in *.
  destruct (add_between s2 al 4 20 5) as [[L3 U3] [N3 F3]];
    [lia|lia|lia|change (inject_Z 4) with 4; lra|change (inject_Z 20) with 20; lra|].
  change (inject_Z 4) with 4 in L3. change (inject_Z 20) with 20 in U3.
  set (s3 := add s2 al) in *.
  destruct (add_between s3 v 5 25 5) as [[L4 U4] [N4 F4]];
    [lia|lia|lia|change (inject_Z 5) with 5; lra|change (inject_Z 25) with 25; lra|].
  change (inject_Z 5) with 5 in L4. change (inject_Z 25) with 25 in U4.
  set (s4 := add s3 v) in *.
  rewrite pow2_m50 in N1, F1, N2, F2. rewrite pow2_m49 in N3, F3, N4, F4.
  assert (Hdiv : ∀ x, x / 5 == x * (1 # 5)) by (intros x; field).
  pose proof (Hdiv s4) as Hs4. pose proof (Hdiv (c + a + h + al + v)) as Hsum.
  assert (Hm : (1 <= s4 / 5 ∧ s4 / 5 <= 5)) by lra.
  subst m. unfold div. split.
  - apply (fl_between_Z _ 1 5); [lia|lia|tauto|tauto].
  - destruct (fl_near (s4 / 5) 3) as [N5 F5];
      [lra|change (2 ^ 3) with 8; lra|lia|].
    rewrite pow2_m51 in N5, F5.
    change (1 # 2 ^ 50) with (1 # 1125899906842624) in *.
    change (1 # 2 ^ 49) with (1 # 562949953421312) in *.
    change (1 # 2 ^ 51) with (1 # 2251799813685248) in *.
    change (2 # 10 ^ 15) with (2 # 1000000000000000). lra.
Qed.

Lemma round2_float_between (m : Q) : 1 <= m <= 5 → 1 <= round2 m ∧ round2 m <= 5.
Proof.
  intros Hm. unfold round2. pose proof (round2_between m Hm) as [Hlo Hhi].
  apply (fl_between_Z _ 1 5); [lia|lia|done|done].
Qed.

Lemma round2_float_near (m : Q) :
  1 <= m <= 5 →
  m - (1 # 200) - (1 # 10 ^ 15) <= round2 m ∧ round2 m <= m + (1 # 200) + (1 # 10 ^ 15).
Proof.
  intros Hm. unfold round2. pose proof (round2_between m Hm) as [Hlo Hhi].
  pose proof (round2_near m) as [Hn Hf].
  destruct (fl_near (Py.round2 m) 3) as [N F]; [lra|change (2 ^ 3) with 8; lra|lia|].
  rewrite pow2_m51 in N, F.
  change (1 # 2 ^ 51) with (1 # 2251799813685248) in *.
  change (1 # 10 ^ 15) with (1 # 1000000000000000). lra.
Qed.

Lemma overall_between (c a h al v : Q) (r : str) :
  1 <= c <= 5 → 1 <= a <= 5 → 1 <= h <= 5 → 1 <= al <= 5 → 1 <= v <= 5 →
  1 <= QualityVerdict.overall (QualityVerdict.mk c a h al v r) <= 5.
Proof.
  intros Hc Ha Hh Hal Hv. unfold QualityVerdict.overall. simpl.
  destruct (float_mean_near c a h al v Hc Ha Hh Hal Hv) as [Hm _].
  by apply round2_float_between.
Qed.

(** The overall score is within half a hundredth of the mean, up to the
    rounding of the float operations. *)
Lemma overall_near (c a h al v : Q) (r : str) :
  1 <= c <= 5 → 1 <= a <= 5 → 1 <= h <= 5 → 1 <= al <= 5 → 1 <= v <= 5 →
  (c + a + h + al + v) / 5 - (1 # 200) - (1 # 10 ^ 14)
  <= QualityVerdict.overall (QualityVerdict.mk c a h al v r)
  ∧ QualityVerdict.overall (QualityVerdict.mk c a h al v r)
    <= (c + a + h + al + v) / 5 + (1 # 200) + (1 # 10 ^ 14).
Proof.
  intros Hc Ha Hh Hal Hv. unfold QualityVerdict.overall. simpl.
  destruct (float_mean_near c a h al v Hc Ha Hh Hal Hv) as [Hm [Hn Hf]].
  destruct (round2_float_near _ Hm) as [Hn' Hf'].
  change (2 # 10 ^ 15) with (2 # 1000000000000000) in *.
  change (1 # 10 ^ 15) with (1 # 1000000000000000) in *.
  change (1 # 10 ^ 14) with (1 # 100000000000000). lra.
Qed.

(** Away from the ties, the overall score is the float nearest to the
    exact mean rounded to two decimals. *)
Lemma overall_clear_of_ties (c a h al v : Q) (r : str) :
  1 <= c <= 5 → 1 <= a <= 5 → 1 <= h <= 5 → 1 <= al <= 5 → 1 <= v <= 5 →
  Statements.clear_of_ties ((c + a + h + al + v) / 5 * 100) →
  QualityVerdict.overall (QualityVerdict.mk c a h al v r)
  = fl (Py.round2 ((c + a + h + al + v) / 5)).
Proof.
  intros Hc Ha Hh Hal Hv Hclear. unfold QualityVerdict.overall. simpl.
  destruct (float_mean_near c a h al v Hc Ha Hh Hal Hv) as [Hm [Hn Hf]].
  set (m := div _ 5) in *. set (mean := (c + a + h + al + v) / 5) in *.
  unfold round2. apply fl_comp. unfold Py.round2.
  assert (Hr : round_half_even (m * 100) = round_half_even (mean * 100)).
  { set (n := round_half_even (mean * 100)).
    pose proof (round_half_even_near (mean * 100)) as [Hlo Hhi]. fold n in Hlo, Hhi.
    unfold Statements.clear_of_ties in Hclear.
    change (1 # 10 ^ 12) with (1 # 1000000000000) in Hclear.
    change (2 # 10 ^ 15) with (2 # 1000000000000000) in Hn, Hf.
    apply round_half_even_unique.
    - assert (Hn1 : inject_Z (n - 1) == inject_Z n - 1).
      { unfold Z.sub. by rewrite inject_Z_plus, inject_Z_opp. }
      destruct (Hclear (n - 1)%Z) as [Hk|Hk]; lra.
    - destruct (Hclear n) as [Hk|Hk]; lra. }
  by rewrite Hr.
Qed.

Lemma integer_clear_of_ties (n : Z) : Statements.clear_of_ties (inject_Z n).
Proof.
  intros k. change (1 # 10 ^ 12) with (1 # 1000000000000).
  destruct (Z_le_gt_dec n k) as [Hk|Hk]; [left|right].
  - rewrite Zle_Qle in Hk. lra.
  - assert (Hk' : (k + 1 ≤ n)%Z) by lia.
    rewrite Zle_Qle, inject_Z_plus in Hk'. change (inject_Z 1) with 1 in Hk'. lra.
Qed.

Lemma clear_of_ties_comp (x y : Q) :
  x == y → Statements.clear_of_ties x → Statements.clear_of_ties y.
Proof. intros Hxy Hx k. destruct (Hx k); [left|right]; lra. Qed.

Lemma round2_two_decimals (x : Q) (n : Z) : x * 100 == inject_Z n → Py.round2 x == x.
Proof.
  intros Hn. unfold Py.round2. rewrite (round_half_even_comp _ _ Hn).
  rewrite (round_half_even_unique n (inject_Z n)) by lra.
  rewrite <-Hn. field.
Qed.

End VerdictLemmas.

Section VerdictProperties.
Context `{Platform}.
Local Open Scope Q_scope.

(** C7 (as amended).  Five sub-scores in [1,5] make a verdict, and its
    overall score lies in [1,5].  It is the mean of the five, computed and
    rounded to two decimals in binary64: at most 0.005 (and the rounding of
    the operations, less than 10^-14) away from the exact mean; the float
    nearest to the exact mean rounded to two decimals when the exact mean
    is clear of the ties between two neighbouring decimals; and the float
    nearest to the exact mean when the mean has two decimals at most, as
    for integer sub-scores.  A sub-score outside [1,5] makes the
    construction raise ValidationError, from numbers as well as from a
    decoded answer, so that every verdict there is has its overall score in
    [1,5]. *)
Theorem quality_verdict_overall_bounds (c a h al v : Q) (r : str) :
  (1 <= c <= 5 → 1 <= a <= 5 → 1 <= h <= 5 → 1 <= al <= 5 → 1 <= v <= 5 →
     ∃ verdict, QualityVerdict.new c a h al v r = Returns verdict
       ∧ 1 <= QualityVerdict.overall verdict <= 5
       ∧ (c + a + h + al + v) / 5 - (1 # 200) - (1 # 10 ^ 14)
         <= QualityVerdict.overall verdict
       ∧ QualityVerdict.overall verdict
         <= (c + a + h + al + v) / 5 + (1 # 200) + (1 # 10 ^ 14)
       ∧ (Statements.clear_of_ties ((c + a + h + al + v) / 5 * 100) →
          QualityVerdict.overall verdict
          = Binary64.fl (round2 ((c + a + h + al + v) / 5)))
       ∧ (∀ n : Z, (c + a + h + al + v) / 5 * 100 == inject_Z n →
          QualityVerdict.overall verdict = Binary64.fl ((c + a + h + al + v) / 5)))
  ∧ (¬ (1 <= c <= 5 ∧ 1 <= a <= 5 ∧ 1 <= h <= 5 ∧ 1 <= al <= 5 ∧ 1 <= v <= 5) →
     QualityVerdict.new c a h al v r = Raises ValidationError)
  ∧ (∀ answer verdict, QualityVerdict.of_kwargs answer = Returns verdict →
     1 <= QualityVerdict.overall verdict <= 5).
Proof.
  split_and!.
  - intros Hc Ha Hh Hal Hv. exists (QualityVerdict.mk c a h al v r).
    split.
    { unfold QualityVerdict.new.
      by rewrite !(proj2 (in_range_spec _)). }
    split; [by apply overall_between|].
    destruct (overall_near c a h al v r Hc Ha Hh Hal Hv) as [Hlo Hhi].
    split; [exact Hlo|]. split; [exact Hhi|]. split.
    + by apply overall_clear_of_ties.
    + intros n Hn. rewrite overall_clear_of_ties; try done.
      * apply fl_comp. by eapply round2_two_decimals.
      * eapply clear_of_ties_comp; [symmetry; exact Hn|]. apply integer_clear_of_ties.
  - intros Hout. unfold QualityVerdict.new.
    destruct (_ && _) eqn:Hr; [|done]. exfalso. apply Hout.
    rewrite !andb_true_iff, !in_range_spec in Hr. tauto.
  - intros answer verdict. unfold QualityVerdict.of_kwargs.
    destruct answer; try done.
    repeat (match goal with
            | |- context [QualityVerdict.required_float ?k ?n] =>
                destruct (QualityVerdict.required_float k n); simpl; [|done]
            end).
    destruct (match dict_lookup _ _ with Some x => _ | None => _ end); simpl; [|done].
    intros (-> & ?)%new_returns. apply overall_between; tauto.
Qed.

End VerdictProperties.

Section VerdictExamples.
Local Existing Instance Demo.platform.
Local Open Scope Q_scope.

Lemma quality_verdict_overall_bounds_witness :
  (∃ verdict, QualityVerdict.new 4 3 (7 # 2) 5 (9 # 4) [] = Returns verdict
     ∧ 1 <= QualityVerdict.overall verdict <= 5
     ∧ QualityVerdict.overall verdict = Binary64.fl (355 # 100))
  ∧ QualityVerdict.new 4 3 6 5 2 [] = Raises ValidationError.
Proof.
  pose proof (quality_verdict_overall_bounds 4 3 (7 # 2) 5 (9 # 4) []) as (Hin & _ & _).
  pose proof (quality_verdict_overall_bounds 4 3 6 5 2 []) as (_ & Hout & _).
  split.
  - destruct Hin as (verdict & Hnew & Hb & _ & _ & _ & Hexact);
      [split; vm_compute; congruence..|].
    exists verdict. split; [exact Hnew|]. split; [exact Hb|].
    rewrite (Hexact 355%Z) by (vm_compute; reflexivity).
    apply fl_comp. vm_compute. reflexivity.
  - apply Hout. intros (_ & _ & [_ Hh] & _). vm_compute in Hh. congruence.
Defined.

(** C7, as stated, fails at a tie: the mean of 1, 1, 1, 1.5 and 3.375 is
    1.575, which rounds to 1.58; the float mean is just below 1.575, and
    the overall score is 1.57. *)
Lemma quality_verdict_overall_at_tie :
  QualityVerdict.new 1 1 1 (3 # 2) (27 # 8) []
  = Returns (QualityVerdict.mk 1 1 1 (3 # 2) (27 # 8) [])
  ∧ (1 + 1 + 1 + (3 # 2) + (27 # 8)) / 5 == 1575 # 1000
  ∧ round2 ((1 + 1 + 1 + (3 # 2) + (27 # 8)) / 5) == 158 # 100
  ∧ QualityVerdict.overall (QualityVerdict.mk 1 1 1 (3 # 2) (27 # 8) [])
    == Binary64.fl (157 # 100)
  ∧ Binary64.fl (157 # 100) < Binary64.fl (158 # 100).
Proof. split_and!; vm_compute; reflexivity. Qed.

End VerdictExamples.
(* ===================================================================== *)
(** * Properties of the parser of the orchestrator *)
(* ===================================================================== *)

Section ParserProperties.
Context `{Platform}.
Import Synthesizer.







End ParserProperties.
(* ===================================================================== *)
(** * Properties of the orchestrator *)
(* ===================================================================== *)

Section OrchestratorProperties.
Context `{Platform}.
Import Synthesizer.



(** The names that have a template are the names of the strategies. *)
Lemma enumerated_has_template (strategy_name : str) (strategy : SynthesisStrategy) :
  SynthesisStrategy_of strategy_name = Returns strategy →
  is_Some (Prompts.get Prompts.STRATEGY_PROMPTS strategy_name).
Proof.
  unfold Prompts.get, Prompts.STRATEGY_PROMPTS, SynthesisStrategy_of.
  repeat case_decide; subst; try done; intros _; by eexists.
Qed.















End OrchestratorProperties.

Section OrchestratorExamples.
Local Existing Instance Demo.platform.
Import Synthesizer.
Local Open Scope string_scope.

(** The end-to-end scenario: one skill, the strategy [direct_task] asking
    for 3 samples, and the stub client. *)
Example synthesize_all_scenario :
  synthesize_all (Demo.synthesizer [("direct_task", 3)] Demo.stub_llm) [0%nat]
    [Demo.recursion]
  = Finished (Returns [Demo.sample_Q1 Demo.recursion_id Demo.recursion DIRECT_TASK]).
Proof. vm_compute. reflexivity. Qed.

(** Two work items, the first of which fails, finishing in the order 1, 0. *)
Example synthesize_all_first_fails :
  synthesize_all
    (Demo.synthesizer [("direct_task", 3); ("edge_case", 2)] Demo.failing_first_llm)
    [1%nat; 0%nat] [Demo.recursion]
  = Finished (Returns [Demo.sample_Q1 Demo.recursion_id Demo.recursion EDGE_CASE]).
Proof. vm_compute. reflexivity. Qed.

(** With [concurrency: 0] the semaphore has no permit: the constructor
    accepts it, and no coroutine ever finishes. *)
Example synthesize_all_without_permit :
  Synthesizer.new (Demo.synthesis_config_at 0 [("direct_task", 3)]) Demo.stub_llm
  = Returns (Demo.stalled_synthesizer [("direct_task", 3)] Demo.stub_llm)
  ∧ synthesize_all (Demo.stalled_synthesizer [("direct_task", 3)] Demo.stub_llm) []
      [Demo.recursion]
    = Suspended
  ∧ Synthesizer.new (Demo.synthesis_config_at (-1) [("direct_task", 3)]) Demo.stub_llm
    = Raises ValueError.
Proof. split_and!; vm_compute; reflexivity. Qed.

(** A number of samples that [str] refuses makes the coroutine raise before
    its [try], and [synthesize_all] with it. *)
Example synthesize_all_unprintable_count :
  synthesize_all (Demo.synthesizer [("direct_task", 10 ^ 4300)] Demo.stub_llm) [0%nat]
    [Demo.recursion]
  = Finished (Raises ValueError).
Proof. vm_compute. reflexivity. Qed.


(** C4.  The parser loses usable entries.  The answer of the stub client
    gives the sample of its usable entry, Q1.  When the instruction of the
    other entry is missing ([null]) instead of empty, or is a number, that
    entry is not usable either and Q1 still is; but the parser raises
    AttributeError on it, and the work item gives no sample at all. *)
Theorem parse_result_loses_usable_entries :
  synthesize_all (Demo.synthesizer [("direct_task", 3)] Demo.stub_llm) [0%nat]
    [Demo.recursion]
  = Finished (Returns [Demo.sample_Q1 Demo.recursion_id Demo.recursion DIRECT_TASK])
  ∧ Spec.usable (JDict [ (lit "instruction", JNull); (lit "response", JStr (lit "A2")) ])
    = None
  ∧ Spec.usable_entries Demo.null_instruction_answer = [(lit "Q1", lit "A1")]
  ∧ _parse_result Demo.null_instruction_answer Demo.recursion (lit "direct_task")
    = Raises AttributeError
  ∧ synthesize_all
      (Demo.synthesizer [("direct_task", 3)]
                        (Demo.answering_llm Demo.null_instruction_answer))
      [0%nat] [Demo.recursion]
    = Finished (Returns [])
  ∧ Spec.usable_entries Demo.number_instruction_answer = [(lit "Q1", lit "A1")]
  ∧ _parse_result Demo.number_instruction_answer Demo.recursion (lit "direct_task")
    = Raises AttributeError
  ∧ synthesize_all
      (Demo.synthesizer [("direct_task", 3)]
                        (Demo.answering_llm Demo.number_instruction_answer))
      [0%nat] [Demo.recursion]
    = Finished (Returns []).
Proof. split_and!; vm_compute; reflexivity. Qed.

(** An answer whose [samples] is [null] holds no sequence: the parser
    raises, and the work item gives no sample, without raising. *)
Example synthesize_all_samples_null :
  _parse_result (JDict [(lit "samples", JNull)]) Demo.recursion (lit "direct_task")
  = Raises TypeError
  ∧ synthesize_all
      (Demo.synthesizer [("direct_task", 3)]
                        (Demo.answering_llm (JDict [(lit "samples", JNull)])))
      [0%nat] [Demo.recursion]
    = Finished (Returns []).
Proof. split; vm_compute; reflexivity. Qed.

End OrchestratorExamples.
(* ===================================================================== *)
(** * Properties of the quality judge *)
(* ===================================================================== *)

Section JudgeProperties.
Context `{Platform}.
Import LLMQualityFilter.




Lemma len_nonneg {A} (l : list A) : 0 ≤ len l.
Proof. unfold len. lia. Qed.



End JudgeProperties.

Section JudgeCountExamples.
Import LLMQualityFilter.




(** The product is rounded before it is truncated: with the float nearest
    to 0.29, 100 samples give 28, the floor of the exact product; with the
    float nearest to 0.7, 10 samples give 7, its ceiling. *)
Example sample_count_rounds_the_product :
  sample_count (Demo.judge_config (Binary64.fl (29 # 100)) (7 # 2)) (seq 0 100) = 28
  ∧ Qfloor (inject_Z 100 * Binary64.fl (29 # 100)) = 28
  ∧ sample_count (Demo.judge_config (Binary64.fl (7 # 10)) (7 # 2)) (seq 0 10) = 7
  ∧ Qfloor (inject_Z 10 * Binary64.fl (7 # 10)) = 6
  ∧ Qceiling (inject_Z 10 * Binary64.fl (7 # 10)) = 7.
Proof. split_and!; vm_compute; reflexivity. Qed.

End JudgeCountExamples.

Section JudgePruningProperties.
Context `{Platform}.
Import LLMQualityFilter.








End JudgePruningProperties.

Section JudgePruningExamples.
Local Existing Instance Demo.platform.
Import LLMQualityFilter.




(** A verdict whose scores have the mean 1.575 has the overall score 1.57:
    at the threshold 1.58 its sample is left out, and its quality score is
    the float 1.57. *)
Example filter_prunes_at_tie :
  (filter (Demo.judge_config 1 (Binary64.fl (158 # 100)))
          (Demo.answering_llm Demo.tie_answer) Demo.first_positions
          Demo.three_objects [0%nat]).1.1
  = []
  ∧ TrainingSample.quality_score
      <$> (filter (Demo.judge_config 1 (Binary64.fl (158 # 100)))
                  (Demo.answering_llm Demo.tie_answer) Demo.first_positions
                  Demo.three_objects [0%nat]).2 !! 0%nat
    = Some (Some (Binary64.fl (157 # 100))).
Proof. split; vm_compute; reflexivity. Qed.

End JudgePruningExamples.

(* ===================================================================== *)
(** * Further properties: deduplication *)
(* ===================================================================== *)

Section CollectorsFurther.
Context `{Platform}.
Import Collectors Statements.


Lemma collect_all_single (batch : list Skill.t) :
  collect_all [Returns batch] = collect_all (Returns <$> [batch]).
Proof. done. Qed.

(** X2.  Deduplicating twice changes nothing: a list that [collect_all]
    returned, given back as the result of one collector, is returned as it
    is; and results whose skills can all be hashed and have distinct ids
    are returned whole, in order. *)
Theorem collect_all_idempotent (results : list (list Skill.t)) :
  (∀ unique, collect_all (Returns <$> results) = Returns unique →
     collect_all [Returns unique] = Returns unique)
  ∧ (Forall hashable (concat results) → NoDup (Skill.id <$> concat results) →
     collect_all (Returns <$> results) = Returns (concat results)).
Proof.
  split.
  - intros unique [Hall ->]%collect_all_returns.
    rewrite collect_all_single.
    destruct (collect_all_closed_form [first_by_key id_or_empty ∅ (concat results)])
      as [[_ ->]|[Hno _]].
    + cbn [concat]. rewrite app_nil_r. f_equal. apply first_by_key_idempotent.
    + destruct Hno. cbn [concat]. rewrite app_nil_r.
      rewrite Forall_forall in Hall |- *. intros u Hu. apply Hall.
      eapply elem_of_sublist; [exact Hu|apply first_by_key_sublist].
  - intros Hall Hnd.
    destruct (collect_all_closed_form results) as [[_ ->]|[Hno _]]; [|done].
    f_equal. apply first_by_key_distinct; [|intros x _; apply not_elem_of_empty].
    assert (Hids : Skill.id <$> concat results
                   = Returns <$> (id_or_empty <$> concat results)).
    { rewrite <-list_fmap_compose. apply list_fmap_ext.
      intros i s Hs. simpl. apply id_or_empty_returns.
      rewrite Forall_forall in Hall. apply Hall. by eapply list_elem_of_lookup_2. }
    rewrite Hids in Hnd. by apply NoDup_fmap_1 in Hnd.
Qed.

End CollectorsFurther.

Section CollectorsFurtherExamples.
Local Existing Instance Demo.platform.
Import Collectors Statements.

Lemma collect_all_idempotent_witness :
  collect_all [Returns [Demo.explain_csv; Demo.sort_csv]]
  = Returns [Demo.explain_csv; Demo.sort_csv].
Proof.
  apply (proj1 (collect_all_idempotent
                  [ [Demo.explain_csv; Demo.sort_csv]; [Demo.explain_github] ])).
  vm_compute. reflexivity.
Defined.

End CollectorsFurtherExamples.
(* ===================================================================== *)
(** * Further properties: the sample filter *)
(* ===================================================================== *)

Section ListFilterLemmas.
Context {A : Type} (p : A → bool).

Lemma list_filter_sublist (l : list A) : List.filter p l `sublist_of` l.
Proof.
  induction l as [|x l IH]; simpl; [done|].
  destruct (p x); [by apply sublist_skip|by apply sublist_cons].
Qed.

Lemma list_filter_all (l : list A) :
  Forall (fun x => p x = true) l → List.filter p l = l.
Proof. induction 1 as [|x l Hx _ IH]; simpl; [done|]. by rewrite Hx, IH. Qed.

Lemma list_filter_elem_of (l : list A) (x : A) :
  x ∈ List.filter p l ↔ x ∈ l ∧ p x = true.
Proof. rewrite !list_elem_of_In. apply List.filter_In. Qed.

Lemma list_filter_split (l : list A) : ∀ pre' u post',
  List.filter p l = pre' ++ u :: post' →
  ∃ pre post, l = pre ++ u :: post ∧ List.filter p pre = pre'.
Proof.
  induction l as [|x l IH]; intros pre' u post'; simpl.
  - by destruct pre'.
  - destruct (p x) eqn:Hx.
    + destruct pre' as [|y pre']; simpl; intros [= -> Hrest].
      * by exists [], l.
      * destruct (IH _ _ _ Hrest) as (pre & post & -> & Hpre).
        exists (y :: pre), post. simpl. by rewrite Hx, Hpre.
    + intros Hrest. destruct (IH _ _ _ Hrest) as (pre & post & -> & Hpre).
      exists (x :: pre), post. simpl. by rewrite Hx.
Qed.

End ListFilterLemmas.

Section SampleFilterProperties.
Context `{Platform}.
Import SampleHeuristicFilter Statements.

Lemma filter_loop_first_by_key cfg (samples : list TrainingSample.t) : ∀ seen result_,
  filter_loop cfg seen result_ samples
  = result_ ++ first_by_key key seen (List.filter (_accept cfg) samples).
Proof.
  induction samples as [|s rest IH]; intros seen result_; simpl.
  - by rewrite app_nil_r.
  - destruct (_accept cfg s); simpl; [|apply IH].
    case_decide; [apply IH|]. rewrite IH. by rewrite <-app_assoc.
Qed.

Lemma sample_filter_closed_form cfg (samples : list TrainingSample.t) :
  SampleHeuristicFilter.filter cfg samples
  = first_by_key key ∅ (List.filter (_accept cfg) samples).
Proof. unfold SampleHeuristicFilter.filter. by rewrite filter_loop_first_by_key. Qed.

Lemma sample_filter_accepted cfg (samples : list TrainingSample.t) :
  Forall (fun s => _accept cfg s = true) (SampleHeuristicFilter.filter cfg samples).
Proof.
  rewrite sample_filter_closed_form. apply Forall_forall. intros s Hs.
  eapply elem_of_sublist in Hs; [|apply first_by_key_sublist].
  by apply list_filter_elem_of in Hs as [_ Hs].
Qed.

(** X3.  What the sample filter returns is a subsequence of its input, in order;
    every sample in it passes [_accept]; no two have the same normalized
    instruction; every accepted sample of the input has its normalized
    instruction in it; and a sample in it is the first accepted sample of
    the input with its normalized instruction. *)
Theorem sample_filter_keeps_first_accepted cfg (samples : list TrainingSample.t) :
  SampleHeuristicFilter.filter cfg samples `sublist_of` samples
  ∧ Forall (fun s => _accept cfg s = true) (SampleHeuristicFilter.filter cfg samples)
  ∧ NoDup (key <$> SampleHeuristicFilter.filter cfg samples)
  ∧ (∀ s, s ∈ samples → _accept cfg s = true →
       ∃ u, u ∈ SampleHeuristicFilter.filter cfg samples ∧ key u = key s)
  ∧ (∀ u, u ∈ SampleHeuristicFilter.filter cfg samples →
       ∃ pre post, samples = pre ++ u :: post
         ∧ ∀ s, s ∈ pre → _accept cfg s = true → key s ≠ key u).
Proof.
  split_and!; [|apply sample_filter_accepted|..]; rewrite sample_filter_closed_form.
  - etrans; [apply first_by_key_sublist|apply list_filter_sublist].
  - apply first_by_key_NoDup.
  - intros s Hs Hacc. apply first_by_key_covers; [|apply not_elem_of_empty].
    by apply list_filter_elem_of.
  - intros u Hu. apply first_by_key_first in Hu as (pre' & post' & Hsplit & Hkeys).
    apply list_filter_split in Hsplit as (pre & post & -> & <-).
    exists pre, post. split; [done|]. intros s Hs Hacc.
    apply Hkeys. by apply list_filter_elem_of.
Qed.

(** X4.  Filtering the samples twice is filtering them once. *)
Theorem sample_filter_idempotent cfg (samples : list TrainingSample.t) :
  SampleHeuristicFilter.filter cfg (SampleHeuristicFilter.filter cfg samples)
  = SampleHeuristicFilter.filter cfg samples.
Proof.
  rewrite (sample_filter_closed_form cfg (SampleHeuristicFilter.filter cfg samples)).
  rewrite list_filter_all by apply sample_filter_accepted.
  rewrite sample_filter_closed_form. apply first_by_key_idempotent.
Qed.

(** X5.  A sample whose trimmed response holds a refusal pattern in its first
    200 characters is not in the result, whatever the rest of it is; nor is
    a sample whose trimmed instruction or response is shorter or longer
    than configured. *)
Theorem sample_filter_drops_refusals cfg (samples : list TrainingSample.t)
    (sample : TrainingSample.t)
    (Hbad : (∃ pattern, pattern ∈ SampleFilterConfig.refusal_patterns cfg
               ∧ re_search_ignorecase pattern
                   (take 200 (strip (TrainingSample.response sample))) = true)
            ∨ len (strip (TrainingSample.instruction sample))
              < SampleFilterConfig.min_instruction_length cfg
            ∨ SampleFilterConfig.max_instruction_length cfg
              < len (strip (TrainingSample.instruction sample))
            ∨ len (strip (TrainingSample.response sample))
              < SampleFilterConfig.min_response_length cfg
            ∨ SampleFilterConfig.max_response_length cfg
              < len (strip (TrainingSample.response sample))) :
  sample ∉ SampleHeuristicFilter.filter cfg samples.
Proof.
  intros Hin.
  pose proof (sample_filter_accepted cfg samples) as Hall.
  rewrite Forall_forall in Hall. specialize (Hall _ Hin).
  unfold _accept in Hall.
  repeat match type of Hall with
         | (if ?b then false else _) = true => destruct b eqn:?; [done|]
         end.
  destruct Hbad as [(pattern & Hp & Hmatch)|Hbad].
  - match goal with
    | He : existsb _ _ = false |- _ =>
        rewrite <-not_true_iff_false, existsb_exists in He; apply He
    end.
    exists pattern. split; [by apply list_elem_of_In|done].
  - repeat match goal with
           | Hb : (_ <? _) = false |- _ => apply Z.ltb_ge in Hb
           | Hb : (_ >? _) = false |- _ => rewrite Z.gtb_ltb in Hb; apply Z.ltb_ge in Hb
           end.
    lia.
Qed.

End SampleFilterProperties.

(* ===================================================================== *)
(** * Further properties: trimming and JSON extraction *)
(* ===================================================================== *)

Section TrimLemmas.

Lemma lstrip_spaces (ws s : str) :
  Forall (fun x => isspace x = true) ws → lstrip (ws ++ s) = lstrip s.
Proof. induction 1 as [|x ws Hx _ IH]; simpl; [done|]. by rewrite Hx. Qed.

Lemma rstrip_spaces (s ws : str) :
  Forall (fun x => isspace x = true) ws → rstrip (s ++ ws) = rstrip s.
Proof.
  intros Hws. unfold rstrip. rewrite reverse_app, lstrip_spaces; [done|].
  by apply Forall_reverse.
Qed.

(** Trimming a text that has visible characters at both ends, with blanks
    around it, gives the text. *)
Lemma strip_around (lead trail s : str) (a b : N) :
  Forall (fun x => isspace x = true) lead → Forall (fun x => isspace x = true) trail →
  isspace a = false → isspace b = false →
  strip (lead ++ (a :: s ++ [b]) ++ trail) = a :: s ++ [b].
Proof.
  intros Hlead Htrail Ha Hb. unfold strip.
  rewrite lstrip_spaces by done.
  replace (lstrip ((a :: s ++ [b]) ++ trail)) with ((a :: s ++ [b]) ++ trail)
    by (simpl; by rewrite Ha).
  rewrite rstrip_spaces by done.
  pose proof (strip_between a b s Ha Hb) as Hs. unfold strip in Hs.
  simpl in Hs. rewrite Ha in Hs. exact Hs.
Qed.

Lemma lstrip_idempotent (s : str) : lstrip (lstrip s) = lstrip s.
Proof.
  induction s as [|c s IH]; simpl; [done|].
  destruct (isspace c) eqn:Hc; [done|]. simpl. by rewrite Hc.
Qed.

Lemma lstrip_head (s : str) :
  lstrip s = [] ∨ ∃ c rest, lstrip s = c :: rest ∧ isspace c = false.
Proof.
  induction s as [|c s IH]; simpl; [by left|].
  destruct (isspace c) eqn:Hc; [done|]. right. by exists c, s.
Qed.

Lemma rstrip_idempotent (s : str) : rstrip (rstrip s) = rstrip s.
Proof. unfold rstrip. by rewrite reverse_involutive, lstrip_idempotent. Qed.

(** Trimming is idempotent. *)
Lemma strip_idempotent (s : str) : strip (strip s) = strip s.
Proof.
  unfold strip.
  assert (Hl : lstrip (rstrip (lstrip s)) = rstrip (lstrip s)).
  { destruct (lstrip_head s) as [->|(c & rest & -> & Hc)]; [done|].
    destruct (rstrip_head c rest Hc) as [rest' ->]. simpl. by rewrite Hc. }
  by rewrite Hl, rstrip_idempotent.
Qed.

Lemma split_on_single (sep : N) (s : str) : sep ∉ s → split_on sep s = [s].
Proof.
  induction s as [|c s IH]; intros Hs; simpl; [done|].
  apply not_elem_of_cons in Hs as [Hc Hs].
  destruct (N.eqb_spec c sep) as [->|_]; [done|]. by rewrite IH.
Qed.

End TrimLemmas.

Section ExtractJsonFurther.
Context `{Platform}.
Import BaseLLMClient.

Lemma fence_visible : isspace 96 = false.
Proof. reflexivity. Qed.

(** The lines of a block opened by a fence line. *)
Lemma fence_line_split (tag body : str) :
  newline ∉ tag →
  split_on newline (fence ++ tag ++ newline :: body)
  = (fence ++ tag) :: split_on newline body.
Proof.
  intros Htag. rewrite app_assoc, split_on_app, split_on_single; [done|].
  intros [Hf|Ht]%elem_of_app; [|done].
  by repeat (apply elem_of_cons in Hf as [Hf|Hf]; [done|]); apply elem_of_nil in Hf.
Qed.

(** X6.  A fenced block with any info string after the opening fence, blanks
    around the block and before the closing fence: what is decoded is the
    text between the two fence lines, trimmed. *)
Theorem extract_json_any_fence (lead trail tag indent t : str)
    (Hlead : Forall (fun x => isspace x = true) lead)
    (Htrail : Forall (fun x => isspace x = true) trail)
    (Hindent : Forall (fun x => isspace x = true) indent)
    (Hindent_line : newline ∉ indent)
    (Htag : newline ∉ tag) :
  _extract_json
    (lead ++ (fence ++ tag ++ newline :: t ++ newline :: indent ++ fence) ++ trail)
  = json_loads (strip t).
Proof.
  unfold _extract_json.
  assert (Hshape : fence ++ tag ++ newline :: t ++ newline :: indent ++ fence
                   = 96%N :: (lit "``" ++ tag ++ newline :: t ++ newline :: indent
                              ++ lit "``") ++ [96%N]).
  { change fence with [96; 96; 96]%N. change (lit "``") with [96; 96]%N.
    cbn [app]. do 3 f_equal.
    rewrite <-app_assoc. f_equal. cbn [app]. f_equal.
    rewrite <-app_assoc. f_equal. cbn [app]. f_equal.
    by rewrite <-app_assoc. }
  rewrite Hshape, strip_around by done. rewrite <-Hshape.
  replace (startswith fence (fence ++ tag ++ newline :: t ++ newline :: indent ++ fence))
    with true by reflexivity.
  rewrite fence_line_split by done. cbn [skipn]. rewrite drop_0.
  rewrite split_on_app, (split_on_single newline (indent ++ fence)).
  - rewrite last_snoc.
    assert (Hclose : strip (indent ++ fence) = fence).
    { unfold strip. rewrite lstrip_spaces by done. reflexivity. }
    rewrite Hclose, decide_True by done.
    by rewrite removelast_last, join_split_on.
  - intros [Hi|Hf]%elem_of_app; [done|].
    by repeat (apply elem_of_cons in Hf as [Hf|Hf]; [done|]); apply elem_of_nil in Hf.
Qed.

(** X7.  Only one wrapper is removed: of a block fenced twice, the inner fenced
    block is what is given to the decoder. *)
Theorem extract_json_one_wrapper_only (t : str) :
  _extract_json (Spec.fenced (Spec.fenced t)) = json_loads (Spec.fenced t).
Proof.
  rewrite extract_json_fenced. f_equal.
  rewrite (fenced_shape t). by apply strip_between.
Qed.

(** X8.  A text that opens with a fence line and does not end with one loses its
    first line only; and a text that opens with a fence and has one line is
    decoded as the empty text. *)
Theorem extract_json_unclosed_fence (tag body : str)
    (Htag : newline ∉ tag)
    (Hbody : strip (fence ++ tag ++ newline :: body) = fence ++ tag ++ newline :: body)
    (Hopen : ∀ l, last (split_on newline body) = Some l → strip l ≠ fence) :
  _extract_json (fence ++ tag ++ newline :: body) = json_loads (strip body)
  ∧ (strip (fence ++ tag) = fence ++ tag →
     _extract_json (fence ++ tag) = json_loads []).
Proof.
  unfold _extract_json. split.
  - rewrite Hbody.
    replace (startswith fence (fence ++ tag ++ newline :: body)) with true by reflexivity.
    rewrite fence_line_split by done. cbn [skipn]. rewrite drop_0.
    destruct (last (split_on newline body)) as [l|] eqn:Hl.
    + rewrite decide_False by (by apply Hopen). by rewrite join_split_on.
    + by rewrite join_split_on.
  - intros ->. replace (startswith fence (fence ++ tag)) with true by reflexivity.
    rewrite split_on_single.
    + reflexivity.
    + intros [Hf|Ht]%elem_of_app; [|done].
      by repeat (apply elem_of_cons in Hf as [Hf|Hf]; [done|]); apply elem_of_nil in Hf.
Qed.

End ExtractJsonFurther.

(* ===================================================================== *)
(** * Further properties: the orchestrator *)
(* ===================================================================== *)

Section OrchestratorFurther.
Context `{Platform}.
Import Synthesizer.

(** X9.  The strategies that have a prompt template are the values of the
    enumeration: a name has a template exactly when [SynthesisStrategy]
    accepts it, so the parser, reached only for a name that has a template,
    never fails on the name. *)
Theorem strategy_prompts_are_the_enumeration (strategy_name : str) :
  is_Some (Prompts.get Prompts.STRATEGY_PROMPTS strategy_name)
  ↔ ∃ strategy, SynthesisStrategy_of strategy_name = Returns strategy.
Proof.
  split; [|intros [strategy Hs]; by eapply enumerated_has_template].
  unfold Prompts.get, Prompts.STRATEGY_PROMPTS, SynthesisStrategy_of.
  repeat case_decide; subst; try done; try (intros _; by eexists); by intros [? ?].
Qed.

Lemma work_items_elem_of cfg (skills : list Skill.t) skill strategy_cfg :
  (skill, strategy_cfg) ∈ work_items cfg skills
  ↔ skill ∈ skills ∧ strategy_cfg ∈ SynthesisConfig.strategies cfg.
Proof.
  unfold work_items. rewrite list_elem_of_bind. split.
  - intros (sk & Hin & Hsk). apply list_elem_of_bind in Hin as (sc & Hin & Hsc).
    apply list_elem_of_singleton in Hin as [= -> ->]. done.
  - intros [Hsk Hsc]. exists skill. split; [|done].
    apply list_elem_of_bind. exists strategy_cfg. split; [|done].
    by apply list_elem_of_singleton.
Qed.






Lemma gather_completed_nothing (coros : list (awaited (list TrainingSample.t)))
    (completion : list nat) (all_samples : list TrainingSample.t) :
  Forall (fun c => c = Finished (Returns [])) coros →
  gather_completed coros completion all_samples = Finished (Returns all_samples).
Proof.
  intros Hall. induction completion as [|i completion IH]; cbn [gather_completed].
  - replace (existsb is_suspended coros) with false; [done|].
    induction Hall as [|c coros -> _ IH']; [done|]. exact IH'.
  - destruct (coros !! i) as [c|] eqn:Hi; [|exact IH].
    rewrite Forall_forall in Hall. rewrite (Hall c) by (by eapply list_elem_of_lookup_2).
    by rewrite app_nil_r.
Qed.

(** X11.  Without a skill or without a strategy, [synthesize_all] returns no
    sample, whatever the semaphore and the client; so it does when no
    configured strategy has a template, if the semaphore has a permit. *)
Theorem synthesize_all_nothing_to_do (self : Synthesizer.t) (skills : list Skill.t)
    (completion : list nat) :
  (skills = [] ∨ SynthesisConfig.strategies (_cfg self) = []
   ∨ (0 < _sem self
      ∧ Forall (fun strategy_cfg =>
                  Prompts.get Prompts.STRATEGY_PROMPTS
                    (SynthesisStrategyConfig.name strategy_cfg) = None)
               (SynthesisConfig.strategies (_cfg self)))) →
  synthesize_all self completion skills = Finished (Returns []).
Proof.
  intros Hnothing. unfold synthesize_all. apply gather_completed_nothing.
  apply Forall_forall. intros c Hc.
  apply list_elem_of_lookup in Hc as [i Hi].
  rewrite list_lookup_imap in Hi.
  destruct (work_items (_cfg self) skills !! i) as [[skill strategy_cfg]|] eqn:Hitem;
    [|done].
  injection Hi as <-.
  apply list_elem_of_lookup_2, work_items_elem_of in Hitem as [Hskill Hcfg].
  destruct Hnothing as [->|[Hnone|[Hsem Hnone]]].
  - by apply elem_of_nil in Hskill.
  - rewrite Hnone in Hcfg. by apply elem_of_nil in Hcfg.
  - rewrite Forall_forall in Hnone. specialize (Hnone _ Hcfg).
    unfold coro, _synthesize_one. cbn [fst snd].
    rewrite (proj2 (Z.leb_gt _ _)) by lia. by rewrite Hnone.
Qed.

End OrchestratorFurther.

Section OrchestratorFurtherExamples.
Local Existing Instance Demo.platform.
Import Synthesizer.
Local Open Scope string_scope.


Lemma synthesize_all_nothing_to_do_witness :
  synthesize_all (Demo.synthesizer [("summarize", 3)] Demo.stub_llm) [0%nat]
    [Demo.recursion]
  = Finished (Returns []).
Proof.
  apply synthesize_all_nothing_to_do. right. right. split; [reflexivity|].
  repeat constructor.
Defined.

End OrchestratorFurtherExamples.
(* ===================================================================== *)
(** * Further properties: the Anthropic client *)
(* ===================================================================== *)

Section AnthropicProperties.
Import AnthropicClient.

Lemma split_messages_closed_form (messages : list Message.t) : ∀ system user_messages,
  split_messages system user_messages messages
  = (default system (Message.content <$> last (List.filter is_system messages)),
     user_messages ++ List.filter (fun msg => negb (is_system msg)) messages).
Proof.
  induction messages as [|msg messages IH]; intros system user_messages;
    cbn [split_messages List.filter].
  - by rewrite app_nil_r.
  - case_decide as Hrole.
    + assert (Hsys : is_system msg = true) by by apply bool_decide_eq_true_2.
      rewrite Hsys, IH. cbn [negb]. f_equal.
      destruct (List.filter is_system messages) as [|m ms]; [done|].
      rewrite last_cons_cons.
      destruct (last (m :: ms)) as [l|] eqn:Hlast; [done|].
      by apply last_None in Hlast.
    + assert (Hsys : is_system msg = false) by by apply bool_decide_eq_false_2.
      rewrite Hsys, IH. cbn [negb]. by rewrite <-app_assoc.
Qed.

(** X12.  The request sent to the Anthropic API carries the messages that are not
    system messages, in their order, and none of the system messages; its
    system text is the content of the last system message, and it has none
    when there is no system message or when that content is empty; model,
    temperature and token ceiling are passed on. *)
Theorem anthropic_request_splits_system (model : str) (messages : list Message.t)
    (temperature : Q) (max_tokens : Z) :
  let request := build_request model messages temperature max_tokens in
  req_messages request = List.filter (fun msg => negb (is_system msg)) messages
  ∧ Forall (fun msg => Message.role msg ≠ lit "system") (req_messages request)
  ∧ req_system request
    = match last (List.filter is_system messages) with
      | Some msg => match Message.content msg with
                    | [] => None
                    | text => Some text
                    end
      | None => None
      end
  ∧ req_model request = model
  ∧ req_temperature request = temperature
  ∧ req_max_tokens request = max_tokens.
Proof.
  unfold build_request. rewrite split_messages_closed_form. cbn [app].
  split_and!; try done.
  - apply Forall_forall. intros msg [_ Hmsg]%list_filter_elem_of.
    unfold is_system in Hmsg. by apply negb_true_iff, bool_decide_eq_false in Hmsg.
  - cbn [req_system]. destruct (last _) as [msg|]; simpl; [|done].
    by destruct (Message.content msg).
Qed.

End AnthropicProperties.

(* ===================================================================== *)
(** * Further properties: the quality judge *)
(* ===================================================================== *)

Section JudgeStoreProperties.
Context `{Platform}.
Import LLMQualityFilter.

Lemma set_quality_score_twice (a b : Q) (o : TrainingSample.t) :
  TrainingSample.set_quality_score b (TrainingSample.set_quality_score a o)
  = TrainingSample.set_quality_score b o.
Proof. done. Qed.




End JudgeStoreProperties.

Section StatisticsLemmas.
Import LLMQualityFilter.
Local Open Scope Q_scope.










End StatisticsLemmas.

Section JudgeStatisticsProperties.
Context `{Platform}.
Import LLMQualityFilter.
Local Open Scope Q_scope.





End JudgeStatisticsProperties.

(* ===================================================================== *)
(** * Further properties: the skill filter and the GitHub collector *)
(* ===================================================================== *)

Section SkillFilterFurther.
Context `{Platform}.
Import HeuristicFilter.


End SkillFilterFurther.

Section GitHubParserProperties.
Context `{Platform}.
Variable stem : str → str.
Import GitHubRepoCollector.

(** X16.  The JSON parser of the GitHub collector: a file that does not decode, or
    decodes to something else than a mapping, gives no skill; a skill it
    gives has a content that is trimmed and not empty, the tags [github] and
    [json], and the repository and path as source and metadata; and it
    raises only when the name found in the file is not a text. *)
Theorem parse_json_skill (repo content path : str) :
  (json_loads content = Raises JSONDecodeError →
     _parse_json stem repo content path = Returns None)
  ∧ (∀ data, json_loads content = Returns data →
       match data with JDict _ => False | _ => True end →
       _parse_json stem repo content path = Returns None)
  ∧ (∀ skill, _parse_json stem repo content path = Returns (Some skill) →
       Skill.content skill ≠ []
       ∧ Statements.trimmed (Skill.content skill)
       ∧ Skill.source skill = lit "github:" ++ repo ++ lit "/" ++ path
       ∧ Skill.tags skill = [lit "github"; lit "json"]
       ∧ Skill.metadata skill = [(lit "repo", JStr repo); (lit "path", JStr path)])
  ∧ (∀ e, _parse_json stem repo content path = Raises e →
       json_loads content = Raises e ∨ e = ValidationError).
Proof.
  unfold _parse_json. split_and!.
  - by intros ->.
  - intros data -> Hshape. by destruct data.
  - intros skill. destruct (json_loads content) as [[| | | | | |data]|[]]; try done.
    destruct (or_else _ _) as [| | | |text| |]; try done.
    destruct (strip text) as [|c rest] eqn:Htext; [done|].
    destruct (TrainingSample.validate_str _) as [name|]; [|done].
    cbn [Py.bind]. intros [= <-]. cbn. split; [done|]. split; [|done].
    unfold Statements.trimmed. rewrite <-Htext. apply strip_idempotent.
  - intros e. destruct (json_loads content) as [[| | | | | |data]|e'] eqn:Hloads;
      try done.
    + destruct (or_else _ _) as [| | | |text| |]; try done.
      destruct (strip text) as [|c rest]; [done|].
      destruct (TrainingSample.validate_str _) as [name|e'] eqn:Hname; [done|].
      cbn [Py.bind]. intros [= <-]. right.
      unfold TrainingSample.validate_str in Hname.
      destruct (or_else _ _); congruence.
    + destruct e'; try done; intros [= <-]; by left.
Qed.

End GitHubParserProperties.

(* ===================================================================== *)
(** * Examples for the further properties *)
(* ===================================================================== *)

Section FurtherExamples.
Local Existing Instance Demo.platform.
Local Open Scope string_scope.

Lemma sample_filter_drops_refusals_witness :
  DemoSamples.refusal
    ∉ SampleHeuristicFilter.filter DemoSamples.refusal_config
        [DemoSamples.answer; DemoSamples.refusal].
Proof.
  apply (sample_filter_drops_refusals DemoSamples.refusal_config
           [DemoSamples.answer; DemoSamples.refusal] DemoSamples.refusal).
  left. exists (lit "I cannot"). split; [left|reflexivity].
Defined.

Lemma extract_json_any_fence_witness :
  BaseLLMClient._extract_json
    (lit " " ++ (BaseLLMClient.fence ++ lit "JSON" ++ BaseLLMClient.newline
                 :: lit "{}" ++ BaseLLMClient.newline :: lit "  " ++ BaseLLMClient.fence)
     ++ [BaseLLMClient.newline])
  = json_loads (strip (lit "{}")).
Proof.
  apply (extract_json_any_fence (lit " ") [BaseLLMClient.newline] (lit "JSON") (lit "  ")
           (lit "{}")).
  - repeat constructor.
  - repeat constructor.
  - repeat constructor.
  - vm_compute. intros Hin. by repeat (apply elem_of_cons in Hin as [Hin|Hin]; [done|]);
      apply elem_of_nil in Hin.
  - vm_compute. intros Hin. by repeat (apply elem_of_cons in Hin as [Hin|Hin]; [done|]);
      apply elem_of_nil in Hin.
Defined.

Lemma extract_json_unclosed_fence_witness :
  BaseLLMClient._extract_json
    (BaseLLMClient.fence ++ lit "json" ++ BaseLLMClient.newline :: lit "[]")
  = json_loads (strip (lit "[]")).
Proof.
  apply (extract_json_unclosed_fence (lit "json") (lit "[]")).
  - vm_compute. intros Hin. by repeat (apply elem_of_cons in Hin as [Hin|Hin]; [done|]);
      apply elem_of_nil in Hin.
  - reflexivity.
  - intros l [= <-]. vm_compute. congruence.
Defined.

End FurtherExamples.

Section PromptProperties.
Import Format.



End PromptProperties.

Section PromptExamples.


End PromptExamples.

